(** * The renewal decision engine of [letsencrypt/main.py]

    A shallow embedding of the certificate-lineage matcher, the staging
    safety guard, the three-way action resolver, the renewal executor and
    the account resolver, followed by the properties proved about them.

    Python values are rendered as follows: [str] as [string] (byte strings,
    ASCII case mapping), [set(...)] as [gset string], lists as [list],
    [None]-able values as [option], exceptions as the [exn] type carried by
    the result of a small error monad that also records the trace of calls
    made on the external collaborators (display, reporter, protocol client,
    lineage storage). Debug-level log lines are left out of the trace. *)

From Stdlib Require Import Ascii String NArith.
From stdpp Require Import base decidable option list gmap strings.

(** ** Python string primitives *)

Module PyStr.

(** [needle in hay] tests, position by position, whether [needle] starts
    there. *)
Fixpoint startswith (needle hay : string) : bool :=
  match needle, hay with
  | EmptyString, _ => true
  | String _ _, EmptyString => false
  | String a n', String b h' => Ascii.eqb a b && startswith n' h'
  end.

Fixpoint contains (needle hay : string) : bool :=
  startswith needle hay ||
  match hay with
  | EmptyString => false
  | String _ h' => contains needle h'
  end.

(** [str.lower()] on a byte string: the letters A..Z move to a..z. *)
Definition lower_ascii (c : ascii) : ascii :=
  let n := N_of_ascii c in
  if (65 <=? n)%N && (n <=? 90)%N then ascii_of_N (n + 32) else c.

Fixpoint lower (s : string) : string :=
  match s with
  | EmptyString => EmptyString
  | String c s' => String (lower_ascii c) (lower s')
  end.

(** [sep.join(xs)] *)
Fixpoint join (sep : string) (xs : list string) : string :=
  match xs with
  | [] => ""
  | [x] => x
  | x :: rest => x +:+ sep +:+ join sep rest
  end.

(** Truthiness of a string: the empty string is false. *)
Definition truthy (s : string) : bool :=
  match s with EmptyString => false | String _ _ => true end.

End PyStr.

(** [os.linesep] on the platforms the client runs on. *)
Definition linesep : string := String (ascii_of_N 10) EmptyString.

(** ** Exceptions, collaborator calls and the effect monad *)

(** The exception classes the engine raises, catches or lets through.
    [OtherError] stands for any further subclass of [errors.Error]
    ([CertStorageError] among them is named because the matcher catches
    it); [Foreign] for any class outside that hierarchy. *)
Inductive exn_class :=
| Error
| MissingCommandlineFlag
| CertStorageError
| OtherError (name : string)
| IOError
| UnboundLocalError
| AttributeError
| AssertionError
| Foreign (name : string).

Record exn := Exn { exn_cls : exn_class; exn_msg : string }.

(** [isinstance(e, errors.Error)] *)
Definition is_errors_Error (e : exn) : bool :=
  match exn_cls e with
  | Error | MissingCommandlineFlag | CertStorageError | OtherError _ => true
  | _ => false
  end.

Definition is_MissingCommandlineFlag (e : exn) : bool :=
  match exn_cls e with MissingCommandlineFlag => true | _ => false end.

Definition is_CertStorageError_or_IOError (e : exn) : bool :=
  match exn_cls e with CertStorageError | IOError => true | _ => false end.

Inductive priority := HIGH_PRIORITY | MEDIUM_PRIORITY | LOW_PRIORITY.

Record Account := { acc_id : string }.

(** One constructor per call made on an external collaborator: the
    protocol client, the lineage store, the reporter, the display, the
    logger, and, for the account resolver, the account storage
    ([load], [find_all]), the display helpers ([choose_account],
    [get_email]) and [client.register]. *)
Inductive event :=
| EvObtainCertificate (domains : list string)
| EvObtainAndEnroll (domains : list string)
| EvSaveSuccessor (prior_version : nat) (cert_pem key_pem chain_pem : string)
| EvUpdateAllLinksTo (version : nat)
| EvAddMessage (msg : string) (prio : priority)
| EvYesNo (question yes_label no_label : string)
| EvMenu (question : string) (choices : list string)
| EvLog (level msg : string)
| EvAccountLoad (account_id : string)
| EvAccountFindAll
| EvChooseAccount (accounts : list Account)
| EvGetEmail
| EvRegister.

Inductive res (A : Type) :=
| Ok (a : A)
| Raise (e : exn).
Arguments Ok {A} a.
Arguments Raise {A} e.

(** A computation yields the calls it made, in order, and either a value
    or the exception that ended it. *)
Definition M (A : Type) : Type := list event * res A.

Definition ret {A} (a : A) : M A := ([], Ok a).
Definition raise {A} (e : exn) : M A := ([], Raise e).
Definition emit (e : event) : M unit := ([e], Ok tt).
Definition lift {A} (r : res A) : M A := ([], r).

Definition bind {A B} (m : M A) (f : A -> M B) : M B :=
  match m with
  | (t, Ok a) => let '(t', r) := f a in (t ++ t', r)
  | (t, Raise e) => (t, Raise e)
  end.

(** [try: m except: handler] with the handler re-raising what it does not
    catch. *)
Definition try_except {A} (m : M A) (handler : exn -> M A) : M A :=
  match m with
  | (t, Raise e) => let '(t', r) := handler e in (t ++ t', r)
  | ok => ok
  end.

#[global] Instance M_ret : MRet M := @ret.
#[global] Instance M_bind : MBind M := fun A B f m => bind m f.

Definition trace {A} (m : M A) : list event := fst m.
Definition outcome {A} (m : M A) : res A := snd m.

(** ** Data model *)

(** The fields of the configuration object that [main.py] reads or
    writes. *)
Record Config := {
  staging : bool;
  verb : string;
  server : string;
  break_my_certs : bool;
  dry_run : bool;
  expand : bool;
  renew_by_default : bool;
  reinstall : bool;
  duplicate : bool;
  tos : bool;
  register_unsafely_without_email : bool;
  account : option string;
  email : option string
}.

Definition set_email (em : string) (c : Config) : Config :=
  {| staging := staging c; verb := verb c; server := server c;
     break_my_certs := break_my_certs c; dry_run := dry_run c;
     expand := expand c; renew_by_default := renew_by_default c;
     reinstall := reinstall c; duplicate := duplicate c; tos := tos c;
     register_unsafely_without_email := register_unsafely_without_email c;
     account := account c; email := Some em |}.

Definition set_account (id : string) (c : Config) : Config :=
  {| staging := staging c; verb := verb c; server := server c;
     break_my_certs := break_my_certs c; dry_run := dry_run c;
     expand := expand c; renew_by_default := renew_by_default c;
     reinstall := reinstall c; duplicate := duplicate c; tos := tos c;
     register_unsafely_without_email := register_unsafely_without_email c;
     account := Some id; email := email c |}.

Module storage.

(** A certificate lineage as [main.py] uses it: the stable paths, the
    file name of its renewal configuration, the recorded
    [renewalparams.server], the numbered versions on disk with the names
    the certificate of each version bears, and the version the stable
    paths point to. *)
Record RenewableCert := {
  filename : string;
  cert : string;
  fullchain : string;
  renewalparams_server : string;
  versions_cert : list nat;
  versions_privkey : list nat;
  versions_chain : list nat;
  versions_fullchain : list nat;
  version_names : list (nat * list string);
  current_version : nat
}.

Definition memb (n : nat) (l : list nat) : bool := bool_decide (n ∈ l).

(** Modelled from the spec: the names borne by the certificate of a
    version (the entry written last for that version is in front). *)
Definition names_of_version (l : RenewableCert) (version : nat) : list string :=
  match find (fun entry => fst entry =? version) (version_names l) with
  | Some entry => snd entry
  | None => []
  end.

(** Modelled from the spec: [names()] is not under src/; the names are
    derived from the currently active certificate version (a list, as
    [names()] returns it). *)
Definition names (l : RenewableCert) : list string :=
  names_of_version l (current_version l).

(** Modelled from the spec: [latest_common_version] is not under src/;
    it is the highest version number present across all four artifact
    kinds (0 when the kinds share none, version numbers starting
    at 1). *)
Definition latest_common_version (l : RenewableCert) : nat :=
  max_list (filter (fun n => memb n (versions_privkey l) &&
                             memb n (versions_chain l) &&
                             memb n (versions_fullchain l) = true)
                   (versions_cert l)).

(** Modelled from the spec: the number given to a successor, one past
    every version number in use by any artifact kind (for a lineage
    whose four kinds agree this is [latest_common_version] plus one). *)
Definition next_free_version (l : RenewableCert) : nat :=
  S (max_list (versions_cert l ++ versions_privkey l ++
               versions_chain l ++ versions_fullchain l)).

(** Modelled from the spec: [save_successor] is not under src/; it
    writes new numbered artifact files of all four kinds, leaves the
    stable paths where they point, and returns the new version number.
    [sans] reads the names a PEM certificate bears; the new version
    bears those of the certificate written. *)
Definition save_successor (sans : string -> list string) (l : RenewableCert)
    (prior_version : nat) (new_cert new_privkey new_chain : string)
    : RenewableCert * nat :=
  let v := next_free_version l in
  ({| filename := filename l; cert := cert l; fullchain := fullchain l;
      renewalparams_server := renewalparams_server l;
      versions_cert := versions_cert l ++ [v];
      versions_privkey := versions_privkey l ++ [v];
      versions_chain := versions_chain l ++ [v];
      versions_fullchain := versions_fullchain l ++ [v];
      version_names := (v, sans new_cert) :: version_names l;
      current_version := current_version l |}, v).

(** Modelled from the spec: [update_all_links_to] is not under src/; it
    repoints the stable paths to the given version, whose certificate
    is the active one from then on. *)
Definition update_all_links_to (l : RenewableCert) (version : nat)
    : RenewableCert :=
  {| filename := filename l; cert := cert l; fullchain := fullchain l;
     renewalparams_server := renewalparams_server l;
     versions_cert := versions_cert l;
     versions_privkey := versions_privkey l;
     versions_chain := versions_chain l;
     versions_fullchain := versions_fullchain l;
     version_names := version_names l;
     current_version := version |}.

End storage.
Import storage.

(** What [obtain_certificate] hands back, already serialised: the PEM
    dump of the certificate, the key's PEM and the dumped chain. *)
Record Obtained := {
  new_certr_pem : string;
  new_key_pem : string;
  new_chain_pem : string
}.

(** What [obtain_and_enroll_certificate] answers: a lineage object,
    [False] (the answer [_auth_from_domains] tests for), or [None]. *)
Inductive enrolment :=
| Enrolled (lineage : RenewableCert)
| NotEnrolled
| NoLineage.

(** The three resolved actions (the tokens "reinstall", "renew" and
    "newcert" of the source). *)
Inductive action := reinstall_action | renew_action | newcert_action.

Definition action_token (a : action) : string :=
  match a with
  | reinstall_action => "reinstall"
  | renew_action => "renew"
  | newcert_action => "newcert"
  end.

(** The collaborators and constants [main.py] imports: each field is
    what the named call answers. *)
Record Env := {
  STAGING_URI : string;
  CANCEL : string;
  argv : list string;
  dirname : string -> string;
  should_renew : Config -> RenewableCert -> bool;
  issuer_repr : string -> res string;
  make_or_verify_dir : res unit;
  renewal_conf_files : list (string * res RenewableCert);
  yesno_answer : string -> bool;
  menu_answer : string -> list string -> string * Z;
  obtain_certificate : list string -> res Obtained;
  obtain_and_enroll_certificate : list string -> res enrolment;
  get_sans_from_cert : string -> list string;
  notAfter_date : string -> res string;
  account_load : string -> res Account;
  account_find_all : list Account;
  choose_account : list Account -> option Account;
  get_email : res string;
  register : Config -> (string -> M bool) -> M (Account * string)
}.

(** ** The staging safety guard *)

Section guard.
Context (env : Env).

(** The inner helper of [_avoid_invalidating_lineage]. *)
Definition _is_staging (srv : string) : bool :=
  String.eqb srv (STAGING_URI env) || PyStr.contains "staging" srv.

(** [now_valid]: the issuer's [repr], lowered, does not mention "fake". *)
Definition now_valid (issuer : string) : bool :=
  negb (PyStr.contains "fake" (PyStr.lower issuer)).

Definition invalidating_msg (lineage : RenewableCert) : string :=
  "You've asked to renew/replace a seemingly valid certificate with " +:+
  "a test certificate (domains: " +:+ PyStr.join ", " (names lineage) +:+
  "). We will not do that " +:+
  "unless you use the --break-my-certs flag!".

Definition _avoid_invalidating_lineage (config : Config)
    (lineage : RenewableCert) (original_server : string) : M unit :=
  issuer ← lift (issuer_repr env (cert lineage));
  let now_valid := now_valid issuer in
  if _is_staging (server config) then
    if negb (_is_staging original_server) || now_valid then
      if negb (break_my_certs config) then
        raise (Exn Error (invalidating_msg lineage))
      else ret tt
    else ret tt
  else ret tt.

End guard.


(** The staging classification in the words of the specification: equal to
    the staging constant, or containing "staging" in any letter case. *)
Definition spec_is_staging (staging_uri srv : string) : bool :=
  String.eqb srv staging_uri || PyStr.contains "staging" (PyStr.lower srv).

(** ** The duplicate matcher and the action resolver *)

Section resolver.
Context (env : Env).

Definition cancel_msg : string :=
  "User chose to cancel the operation and may " +:+
  "reinvoke the client.".

(** One turn of the loop of [_find_duplicative_certs] on a lineage that
    loaded: the pair is (identical_names_cert, subset_names_cert). *)
Definition consider (domains : list string) (candidate_lineage : RenewableCert)
    (found : option RenewableCert * option RenewableCert)
    : option RenewableCert * option RenewableCert :=
  let '(identical_names_cert, subset_names_cert) := found in
  let candidate_names : gset string := list_to_set (names candidate_lineage) in
  if bool_decide (candidate_names = list_to_set domains) then
    (Some candidate_lineage, subset_names_cert)
  else if bool_decide (candidate_names ⊆ list_to_set domains) then
    match subset_names_cert with
    | None => (identical_names_cert, Some candidate_lineage)
    | Some s =>
        if length (names s) <? size candidate_names
        then (identical_names_cert, Some candidate_lineage)
        else (identical_names_cert, subset_names_cert)
    end
  else found.

(** The [for] loop: a configuration file that fails to load with
    [CertStorageError] or [IOError] is logged and skipped, any other
    exception ends the loop. *)
Fixpoint find_loop (domains : list string)
    (files : list (string * res RenewableCert))
    (found : option RenewableCert * option RenewableCert)
    : M (option RenewableCert * option RenewableCert) :=
  match files with
  | [] => ret found
  | (renewal_file, loaded) :: rest =>
      match loaded with
      | Raise e =>
          if is_CertStorageError_or_IOError e then
            (emit (EvLog "warning" ("Renewal conf file " +:+ renewal_file +:+
                                    " is broken. Skipping."));;
             find_loop domains rest found)
          else raise e
      | Ok candidate_lineage =>
          find_loop domains rest (consider domains candidate_lineage found)
      end
  end.

Definition _find_duplicative_certs (config : Config) (domains : list string)
    : M (option RenewableCert * option RenewableCert) :=
  lift (make_or_verify_dir env);;
  find_loop domains (renewal_conf_files env) (None, None).

Definition subset_question (domains : list string) (cert : RenewableCert)
    : string :=
  "You have an existing certificate that contains a portion of " +:+
  "the domains you requested (ref: " +:+ filename cert +:+ ")" +:+
  linesep +:+ linesep +:+ "It contains these " +:+
  "names: " +:+ PyStr.join ", " (names cert) +:+ linesep +:+ linesep +:+
  "You requested these names for the new " +:+
  "certificate: " +:+ PyStr.join ", " domains +:+ "." +:+
  linesep +:+ linesep +:+
  "Do you want to expand and replace this existing " +:+
  "certificate with the new certificate?".

Definition duplicate_hint (cert : RenewableCert) : string :=
  "To obtain a new certificate that contains these names without " +:+
  "replacing your existing certificate for " +:+
  PyStr.join ", " (names cert) +:+ ", you must use the " +:+
  "--duplicate option." +:+ linesep +:+ linesep +:+
  "For example:" +:+ linesep +:+ linesep +:+
  hd "" (argv env) +:+ " --duplicate " +:+ PyStr.join " " (tl (argv env)).

Definition _handle_subset_cert_request (config : Config)
    (domains : list string) (cert : RenewableCert)
    : M (action * option RenewableCert) :=
  let question := subset_question domains cert in
  go ← (if expand config then ret true
        else if renew_by_default config then ret true
        else (emit (EvYesNo question "Expand" "Cancel");;
              ret (yesno_answer env question)));
  if go : bool then ret (renew_action, Some cert)
  else
    (emit (EvAddMessage (duplicate_hint cert) HIGH_PRIORITY);;
     raise (Exn Error cancel_msg)).

Definition identical_question (cert : RenewableCert) : string :=
  "You have an existing certificate that contains exactly the same " +:+
  "domains you requested and isn't close to expiry." +:+
  linesep +:+ "(ref: " +:+ filename cert +:+ ")" +:+ linesep +:+ linesep +:+
  "What would you like to do?".

(** The binding of [keep_opt]: neither branch of the [if]/[elif] assigns
    it for another verb. *)
Definition keep_opt (config : Config) : option string :=
  if String.eqb (verb config) "run" then
    Some "Attempt to reinstall this existing certificate"
  else if String.eqb (verb config) "certonly" then
    Some "Keep the existing certificate for now"
  else None.

Definition _handle_identical_cert_request (config : Config)
    (cert : RenewableCert) : M (action * option RenewableCert) :=
  if should_renew env config cert then ret (renew_action, Some cert)
  else if reinstall config then ret (reinstall_action, Some cert)
  else
    let question := identical_question cert in
    match keep_opt config with
    | None =>
        raise (Exn UnboundLocalError
                 "local variable 'keep_opt' referenced before assignment")
    | Some keep =>
        let choices :=
          [keep; "Renew & replace the cert (limit ~5 per 7 days)"] in
        emit (EvMenu question choices);;
        (let response := menu_answer env question choices in
         if String.eqb (fst response) (CANCEL env) then
           raise (Exn Error cancel_msg)
         else if (snd response =? 0)%Z then ret (reinstall_action, Some cert)
         else if (snd response =? 1)%Z then ret (renew_action, Some cert)
         else raise (Exn AssertionError "This is impossible"))
    end.

Definition _treat_as_renewal (config : Config) (domains : list string)
    : M (action * option RenewableCert) :=
  if duplicate config then ret (newcert_action, None)
  else
    found ← _find_duplicative_certs config domains;
    match found with
    | (None, None) => ret (newcert_action, None)
    | (Some ident_names_cert, _) =>
        _handle_identical_cert_request config ident_names_cert
    | (None, Some subset_names_cert) =>
        _handle_subset_cert_request config domains subset_names_cert
    end.

End resolver.

(** ** The renewal executor *)

Section executor.
Context (env : Env).

(** The storage path the report names: the full chain when there is one. *)
Definition report_path (cert_path fullchain_path : string) : string :=
  if PyStr.truthy fullchain_path then fullchain_path else cert_path.

Definition new_cert_msg (cert_path fullchain_path expiry : string) : string :=
  let and_chain :=
    if PyStr.truthy fullchain_path then "and chain have" else "has " in
  "Congratulations! Your certificate " +:+ and_chain +:+
  " been saved at " +:+ report_path cert_path fullchain_path +:+ "." +:+
  " Your cert will expire on " +:+ expiry +:+
  ". To obtain a new version of the " +:+
  "certificate in the future, simply run Let's Encrypt again.".

Definition _report_new_cert (cert_path fullchain_path : string) : M unit :=
  expiry ← lift (notAfter_date env cert_path);
  emit (EvAddMessage (new_cert_msg cert_path fullchain_path expiry)
                     MEDIUM_PRIORITY).

(** The [renew] branch of [_auth_from_domains]. The lineage object is
    mutated in place by the two storage calls; the value returned here
    is its state afterwards. *)
Definition renew_lineage (config : Config) (domains : list string)
    (lineage : RenewableCert) : M RenewableCert :=
  let original_server := renewalparams_server lineage in
  _avoid_invalidating_lineage env config lineage original_server;;
  emit (EvObtainCertificate domains);;
  new ← lift (obtain_certificate env domains);
  if dry_run config then
    (emit (EvLog "info" ("Dry run: skipping updating lineage at " +:+
                         dirname env (cert lineage)));;
     ret lineage)
  else
    (let prior := latest_common_version lineage in
     emit (EvSaveSuccessor prior (new_certr_pem new) (new_key_pem new)
                           (new_chain_pem new));;
     (let '(lineage1, _) :=
        save_successor (get_sans_from_cert env) lineage prior
                       (new_certr_pem new) (new_key_pem new)
                       (new_chain_pem new) in
      let version := latest_common_version lineage1 in
      emit (EvUpdateAllLinksTo version);;
      ret (update_all_links_to lineage1 version))).

(** The tail shared by the [renew] and [newcert] branches; the report
    reads the paths of the lineage, which [None] does not have. *)
Definition report_and_return (config : Config)
    (lineage : option RenewableCert) (act : action)
    : M (option RenewableCert * action) :=
  (if negb (dry_run config) && negb (String.eqb (verb config) "renew")
   then match lineage with
        | Some l => _report_new_cert (cert l) (fullchain l)
        | None => raise (Exn AttributeError "NoneType")
        end
   else ret tt);;
  ret (lineage, act).

(** The opening [if lineage is None] of [_auth_from_domains]: a lineage
    handed in by the caller is renewed, otherwise the resolver decides. *)
Definition resolve_action (config : Config) (domains : list string)
    (lineage : option RenewableCert) : M (action * option RenewableCert) :=
  match lineage with
  | None => _treat_as_renewal env config domains
  | Some l => ret (renew_action, Some l)
  end.

Definition _auth_from_domains (config : Config) (domains : list string)
    (lineage : option RenewableCert) : M (option RenewableCert * action) :=
  '(act, lineage) ← resolve_action config domains lineage;
  match act with
  | reinstall_action => ret (lineage, reinstall_action)
  | renew_action =>
      match lineage with
      | None => raise (Exn AttributeError "NoneType")
      | Some l =>
          lineage ← renew_lineage config domains l;
          report_and_return config (Some lineage) renew_action
      end
  | newcert_action =>
      emit (EvObtainAndEnroll domains);;
      enrolled ← lift (obtain_and_enroll_certificate env domains);
      match enrolled with
      | NotEnrolled => raise (Exn Error "Certificate could not be obtained")
      | Enrolled lineage =>
          report_and_return config (Some lineage) newcert_action
      | NoLineage => report_and_return config None newcert_action
      end
  end.

End executor.

(** ** The account resolver *)

Section accounts.
Context (env : Env).

Definition tos_msg (config : Config) (terms_of_service : string) : string :=
  "Please read the Terms of Service at " +:+ terms_of_service +:+ ". You " +:+
  "must agree in order to register with the ACME " +:+
  "server at " +:+ server config.

Definition _tos_cb (config : Config) (terms_of_service : string) : M bool :=
  if tos config then ret true
  else
    (let msg := tos_msg config terms_of_service in
     emit (EvYesNo msg "Agree" "Cancel");;
     ret (yesno_answer env msg)).

(** The [try] statement around [client.register]. *)
Definition register_account (config : Config) : M (Account * string) :=
  emit EvRegister;;
  try_except (register env config (_tos_cb config))
    (fun e =>
       if is_MissingCommandlineFlag e then raise e
       else if is_errors_Error e then
         raise (Exn Error "Unable to register an account with ACME server")
       else raise e).

(** With no e-mail address and no waiver the address is asked for and
    written back into the configuration. *)
Definition prompt_email (config : Config) : M Config :=
  if bool_decide (email config = None) &&
     negb (register_unsafely_without_email config)
  then (emit EvGetEmail;;
        em ← lift (get_email env); ret (set_email em config))
  else ret config.

Definition _determine_account (config : Config)
    : M (Account * option string * Config) :=
  '(acc, acme, config) ←
    match account config with
    | Some name =>
        emit (EvAccountLoad name);;
        acc ← lift (account_load env name);
        ret (acc, None, config)
    | None =>
        emit EvAccountFindAll;;
        let accounts := account_find_all env in
        if 1 <? length accounts then
          emit (EvChooseAccount accounts);;
          match choose_account env accounts with
          | Some acc => ret (acc, None, config)
          | None => raise (Exn AttributeError "NoneType")
          end
        else
          match accounts with
          | acc :: _ => ret (acc, None, config)
          | [] =>
              config ← prompt_email config;
              '(acc, acme) ← register_account config;
              ret (acc, Some acme, config)
          end
    end;
  ret (acc, acme, set_account (acc_id acc) config).

End accounts.

(** ** Observations on traces *)

(** A call that changes the persisted state of a lineage. *)
Definition is_persistence_call (ev : event) : bool :=
  match ev with
  | EvSaveSuccessor _ _ _ _ | EvUpdateAllLinksTo _ => true
  | _ => false
  end.

(** The report of a new certificate: the only message the engine files
    at medium priority. *)
Definition is_new_cert_report (ev : event) : bool :=
  match ev with
  | EvAddMessage _ MEDIUM_PRIORITY => true
  | _ => false
  end.

(** The calls the resolver makes: log lines, prompts, and the
    high-priority hint that precedes a cancellation. *)
Definition is_prompt_or_log (ev : event) : bool :=
  match ev with
  | EvLog _ _ | EvYesNo _ _ _ | EvMenu _ _ | EvAddMessage _ HIGH_PRIORITY => true
  | _ => false
  end.

(** The lineages of the enumeration that loaded, in enumeration order. *)
Definition readable (files : list (string * res RenewableCert))
    : list RenewableCert :=
  omap (fun f => match snd f with Ok l => Some l | Raise _ => None end) files.

(** Every file either loads or fails in one of the two ways the matcher
    tolerates. *)
Definition loads_or_broken (files : list (string * res RenewableCert)) : Prop :=
  Forall (fun f => match snd f with
                   | Ok _ => True
                   | Raise e => is_CertStorageError_or_IOError e = true
                   end) files.

(** The warnings the matcher logs for the broken files. *)
Definition broken_log (files : list (string * res RenewableCert)) : list event :=
  omap (fun f => match snd f with
                 | Ok _ => None
                 | Raise _ => Some (EvLog "warning"
                     ("Renewal conf file " +:+ fst f +:+ " is broken. Skipping."))
                 end) files.

(** The resolver hands the matcher's answer to exactly one handler. *)
Definition dispatch (env : Env) (config : Config) (domains : list string)
    (found : option RenewableCert * option RenewableCert)
    : M (action * option RenewableCert) :=
  match found with
  | (Some c, _) => _handle_identical_cert_request env config c
  | (None, Some c) => _handle_subset_cert_request env config domains c
  | (None, None) => ret (newcert_action, None)
  end.

(** What the [try] statement around the registration lets out for an
    exception raised inside it. *)
Definition reraised (e : exn) : exn :=
  if is_MissingCommandlineFlag e then e
  else if is_errors_Error e
       then Exn Error "Unable to register an account with ACME server"
       else e.

(** A computation preceded by calls already made. *)
Definition after {A} (t : list event) (m : M A) : M A := (t ++ fst m, snd m).

Definition name_set (l : RenewableCert) : gset string := list_to_set (names l).

(** The pure content of the matcher's loop over the readable lineages. *)
Definition scan (domains : list string) (ls : list RenewableCert)
    (found : option RenewableCert * option RenewableCert)
    : option RenewableCert * option RenewableCert :=
  foldl (fun acc c => consider domains c acc) found ls.

(** ** Sample collaborators

    Concrete lineages, configurations and collaborators on which the
    statements below are exercised. *)

Module Sample.

Definition production_uri : string :=
  "https://acme-v01.api.letsencrypt.org/directory".
Definition staging_uri : string :=
  "https://acme-staging.api.letsencrypt.org/directory".

Definition lineage (name : string) (ns : list string) : RenewableCert :=
  {| filename := "/etc/letsencrypt/renewal/" +:+ name +:+ ".conf";
     cert := "/etc/letsencrypt/live/" +:+ name +:+ "/cert.pem";
     fullchain := "/etc/letsencrypt/live/" +:+ name +:+ "/fullchain.pem";
     renewalparams_server := production_uri;
     versions_cert := [1]; versions_privkey := [1];
     versions_chain := [1]; versions_fullchain := [1];
     version_names := [(1, ns)];
     current_version := 1 |}.

Definition config (v srv : string) (dry brk exp : bool) : Config :=
  {| staging := dry; verb := v; server := srv;
     break_my_certs := brk; dry_run := dry; expand := exp;
     renew_by_default := false; reinstall := false; duplicate := false;
     tos := true; register_unsafely_without_email := true;
     account := None; email := None |}.

Definition obtained : Obtained :=
  {| new_certr_pem := "CERT"; new_key_pem := "KEY"; new_chain_pem := "CHAIN" |}.

(** Collaborators over a given enumeration of renewal files, with a
    production issuer on every certificate, a user who picks the second
    menu entry, and a registration that fails as given. *)
Definition env (files : list (string * res RenewableCert))
    (registration : exn) : Env :=
  {| STAGING_URI := staging_uri;
     CANCEL := "cancel";
     argv := ["letsencrypt"; "certonly"];
     dirname := fun p => p;
     should_renew := fun _ _ => false;
     issuer_repr := fun _ => Ok "<X509Name object '/CN=Lets Encrypt Authority X1'>";
     make_or_verify_dir := Ok tt;
     renewal_conf_files := files;
     yesno_answer := fun _ => true;
     menu_answer := fun _ _ => ("ok", 1%Z);
     obtain_certificate := fun _ => Ok obtained;
     obtain_and_enroll_certificate := fun d => Ok (Enrolled (lineage "new" d));
     get_sans_from_cert := fun _ => ["a.com"];
     notAfter_date := fun _ => Ok "2016-05-01";
     account_load := fun _ => Raise (Exn (OtherError "AccountNotFound") "");
     account_find_all := [];
     choose_account := fun _ => None;
     get_email := Ok "admin@example.com";
     register := fun _ _ => ([], Raise registration) |}.

Definition abc : RenewableCert := lineage "abc" ["a.com"; "b.com"; "c.com"].
Definition ab : RenewableCert := lineage "ab" ["a.com"; "b.com"].
Definition a : RenewableCert := lineage "a" ["a.com"].

Definition boom : exn := Exn (OtherError "ConfigurationError") "boom".

Definition env_none : Env := env [] boom.
Definition env_a_ab : Env := env [("a", Ok a); ("ab", Ok ab)] boom.
Definition env_ab_a : Env := env [("ab", Ok ab); ("a", Ok a)] boom.
Definition env_ab : Env := env [("ab", Ok ab)] boom.
Definition env_abc_a : Env := env [("abc", Ok abc); ("a", Ok a)] boom.

(** A plain [certonly] run against production, one that allows
    expansion, a dry run (staging, with the override the dry run sets),
    a guarded staging run, and the batch [renew] verb. *)
Definition certonly : Config := config "certonly" production_uri false false false.
Definition certonly_expand : Config := config "certonly" production_uri false false true.
Definition certonly_dry : Config := config "certonly" staging_uri true true false.
Definition certonly_staging : Config := config "certonly" staging_uri false false false.
Definition renew_verb : Config := config "renew" production_uri false false false.
Definition install_verb : Config := config "install" production_uri false false false.

End Sample.

(** ** Further observations on traces *)

(** A question put to the user. *)
Definition is_prompt (ev : event) : bool :=
  match ev with
  | EvYesNo _ _ _ | EvMenu _ _ | EvChooseAccount _ | EvGetEmail => true
  | _ => false
  end.

(** A call on the protocol client. *)
Definition is_authority_call (ev : event) : bool :=
  match ev with
  | EvObtainCertificate _ | EvObtainAndEnroll _ => true
  | _ => false
  end.

(** A warning of the matcher about a renewal file it skipped. *)
Definition is_warning (ev : event) : bool :=
  match ev with
  | EvLog level _ => String.eqb level "warning"
  | _ => false
  end.

(** ** The verb functions

    The functions of [main.py] that implement the verbs call further
    collaborators (plugin selection, deployment, the display helpers,
    standard output) and read further fields of the configuration. *)

Module args.

(** The fields of the configuration object, beyond those of [Config],
    that the verb functions and the exception handler read. An unset
    list of domains or path is [None] in the source; for [domains] the
    source only tests emptiness, so the empty list stands for both. *)
Record t := {
  domains : list string;
  csr : option string;
  actual_csr : string * string;
  key_path : option string;
  cert_path : option string;
  chain_path : option string;
  fullchain_path : option string;
  installer : string;
  debug : bool;
  verbose_count : Z;
  logs_dir : string;
  text_mode : bool;
  noninteractive_mode : bool
}.

Definition set_noninteractive_mode (b : bool) (a : t) : t :=
  {| domains := domains a; csr := csr a; actual_csr := actual_csr a;
     key_path := key_path a; cert_path := cert_path a;
     chain_path := chain_path a; fullchain_path := fullchain_path a;
     installer := installer a; debug := debug a;
     verbose_count := verbose_count a; logs_dir := logs_dir a;
     text_mode := text_mode a; noninteractive_mode := b |}.

End args.

(** A call made by a verb function: one made by the engine, or one of
    its own. *)
Inductive call :=
| Engine (ev : event)
| ChoosePlugins (verb : string)
| ChooseNames (installer : option string)
| ProcessDomain (d : string)
| DeployCertificate (domains : list string)
    (privkey cert chain fullchain : option string)
| EnhanceConfig (domains : list string)
| SuccessInstallation (domains : list string)
| SuccessRenewal (domains : list string) (act : action)
| ObtainCertificateFromCsr (domains : list string) (csr typ : string)
| SaveCertificate (cert_path chain_path fullchain_path : option string)
| Restart
| Print (line : string).

Definition V (A : Type) : Type := list call * res A.

Definition vbind {A B} (m : V A) (f : A -> V B) : V B :=
  match m with
  | (t, Ok a) => let '(t', r) := f a in (t ++ t', r)
  | (t, Raise e) => (t, Raise e)
  end.

#[global] Instance V_ret : MRet V := fun A a => ([], Ok a).
#[global] Instance V_bind : MBind V := fun A B f m => vbind m f.

Definition vraise {A} (e : exn) : V A := ([], Raise e).
Definition vlift {A} (r : res A) : V A := ([], r).
Definition does (c : call) : V unit := ([c], Ok tt).

Definition calls {A} (m : V A) : list call := fst m.
Definition result {A} (m : V A) : res A := snd m.

(** A computation of the engine run inside a verb function. *)
Definition engine {A} (m : M A) : V A := (Engine <$> fst m, snd m).

(** The further collaborators: plugin selection (answering installer and
    authenticator), the name chooser, the client's deployment calls, the
    installer's restart, and the key and chain paths of a lineage. *)
Record Shell := {
  core : Env;
  choose_configurator_plugins : string -> res (option string * option string);
  choose_names : option string -> list string;
  deploy_certificate : list string -> res unit;
  enhance_config : list string -> res unit;
  obtain_certificate_from_csr :
    list string -> string -> string -> res (string * string);
  save_certificate :
    option string -> option string -> option string -> res (string * string);
  restart : res unit;
  privkey : RenewableCert -> string;
  chain : RenewableCert -> string
}.

(** [isinstance(e, errors.PluginSelectionError)], a direct subclass of
    [errors.Error]. *)
Definition is_PluginSelectionError (e : exn) : bool :=
  match exn_cls e with
  | OtherError name => String.eqb name "PluginSelectionError"
  | _ => false
  end.

(** The newline character of a string literal. *)
Definition nl : string := String (ascii_of_N 10) EmptyString.

Definition donation_msg : string :=
  "If you like Let's Encrypt, please consider supporting our work by:" +:+
  nl +:+ nl +:+
  "Donating to ISRG / Let's Encrypt:   https://letsencrypt.org/donate" +:+
  nl +:+
  "Donating to EFF:                    https://eff.org/donate-le" +:+
  nl +:+ nl.

Definition _suggest_donation_if_appropriate (config : Config) (act : action)
    : M unit :=
  if staging config || String.eqb (verb config) "renew" then ret tt
  else
    match act with
    | reinstall_action => ret tt
    | _ => emit (EvAddMessage donation_msg LOW_PRIORITY)
    end.

Definition _report_successful_dry_run (config : Config) : M unit :=
  if negb (String.eqb (verb config) "renew")
  then emit (EvAddMessage "The dry run was successful." HIGH_PRIORITY)
  else ret tt.

(** What [client.Client] is built from. *)
Record Client := {
  client_account : option Account;
  client_acme : option string;
  client_authenticator : option string;
  client_installer : option string
}.

Section verbs.
Context (sh : Shell).

Definition no_domains_msg : string :=
  "Please specify --domains, or --installer that " +:+
  "will help in domain names autodiscovery".

(** The [for] loop of [_find_domains]. *)
Fixpoint process_domains (ds : list string) : V unit :=
  match ds with
  | [] => mret tt
  | d :: rest => does (ProcessDomain d);; process_domains rest
  end.

Definition _find_domains (a : args.t) (installer : option string)
    : V (list string) :=
  domains ←
    (match args.domains a with
     | [] =>
         does (ChooseNames installer);;
         (let domains := choose_names sh installer in
          process_domains domains;; mret domains)
     | _ :: _ => mret (args.domains a)
     end);
  match domains with
  | [] => vraise (Exn Error no_domains_msg)
  | _ :: _ => mret domains
  end.

Definition _init_le_client (config : Config)
    (authenticator installer : option string) : V (Client * Config) :=
  match authenticator with
  | Some _ =>
      '(acc, acme, config) ← engine (_determine_account (core sh) config);
      mret ({| client_account := Some acc; client_acme := acme;
               client_authenticator := authenticator;
               client_installer := installer |}, config)
  | None =>
      mret ({| client_account := None; client_acme := None;
               client_authenticator := authenticator;
               client_installer := installer |}, config)
  end.

(** [install]: the value returned is [None] or the message of a failed
    plugin selection. *)
Definition install (config : Config) (a : args.t) : V (option string) :=
  does (ChoosePlugins "install");;
  match choose_configurator_plugins sh "install" with
  | Raise e =>
      if is_PluginSelectionError e then mret (Some (exn_msg e)) else vraise e
  | Ok (installer, _) =>
      domains ← _find_domains a installer;
      '(le_client, config) ← _init_le_client config None installer;
      match args.cert_path a with
      | None => vraise (Exn AssertionError "")
      | Some _ =>
          does (DeployCertificate domains (args.key_path a) (args.cert_path a)
                                  (args.chain_path a) (args.fullchain_path a));;
          vlift (deploy_certificate sh domains);;
          does (EnhanceConfig domains);;
          vlift (enhance_config sh domains);;
          mret None
      end
  end.

Definition run (config : Config) (a : args.t) : V (option string) :=
  does (ChoosePlugins "run");;
  match choose_configurator_plugins sh "run" with
  | Raise e =>
      if is_PluginSelectionError e then mret (Some (exn_msg e)) else vraise e
  | Ok (installer, authenticator) =>
      domains ← _find_domains a installer;
      '(le_client, config) ← _init_le_client config authenticator installer;
      '(lineage, act) ← engine (_auth_from_domains (core sh) config domains None);
      match lineage with
      | None => vraise (Exn AttributeError "NoneType")
      | Some lineage =>
          does (DeployCertificate domains (Some (privkey sh lineage))
                  (Some (cert lineage)) (Some (chain sh lineage))
                  (Some (fullchain lineage)));;
          vlift (deploy_certificate sh domains);;
          does (EnhanceConfig domains);;
          vlift (enhance_config sh domains);;
          (if length (versions_cert lineage) =? 1
           then does (SuccessInstallation domains)
           else does (SuccessRenewal domains act));;
          engine (_suggest_donation_if_appropriate config act);;
          mret None
      end
  end.

(** The announcement [obtain_cert] prints under the verb "renew". *)
Definition deployed_line (a : args.t) (installer : option string)
    (fullchain_path : string) : string :=
  match installer with
  | None =>
      "new certificate deployed without reload, fullchain is " +:+ fullchain_path
  | Some _ =>
      "new certificate deployed with reload of " +:+ args.installer a +:+
      " server; fullchain is " +:+ fullchain_path
  end.

(** [obtain_cert]: the branch on [config.csr], then the closing report. *)
Definition obtain_cert (config : Config) (a : args.t)
    (lineage : option RenewableCert) : V unit :=
  does (ChoosePlugins "certonly");;
  match choose_configurator_plugins sh "certonly" with
  | Raise e =>
      (if is_PluginSelectionError e
       then does (Engine (EvLog "info"
                    ("Could not choose appropriate plugin: " +:+ exn_msg e)))
       else mret tt);;
      vraise e
  | Ok (installer, authenticator) =>
      '(le_client, config) ← _init_le_client config authenticator installer;
      act ←
        (match args.csr a with
         | Some _ =>
             match lineage with
             | Some _ =>
                 vraise (Exn AssertionError
                           "Did not expect a CSR with a RenewableCert")
             | None =>
                 let '(csr, typ) := args.actual_csr a in
                 does (ObtainCertificateFromCsr (args.domains a) csr typ);;
                 vlift (obtain_certificate_from_csr sh (args.domains a) csr typ);;
                 (if dry_run config then
                    does (Engine (EvLog "info"
                            ("Dry run: skipping saving certificate to " +:+
                             default "None" (args.cert_path a))))
                  else
                    (does (SaveCertificate (args.cert_path a) (args.chain_path a)
                                           (args.fullchain_path a));;
                     '(cert_path, cert_fullchain) ←
                       vlift (save_certificate sh (args.cert_path a)
                                (args.chain_path a) (args.fullchain_path a));
                     engine (_report_new_cert (core sh) cert_path cert_fullchain)));;
                 mret newcert_action
             end
         | None =>
             domains ← _find_domains a installer;
             '(_, act) ←
               engine (_auth_from_domains (core sh) config domains lineage);
             mret act
         end);
      (if dry_run config then engine (_report_successful_dry_run config)
       else if String.eqb (verb config) "renew" then
         (match installer with
          | None => mret tt
          | Some _ => does Restart;; vlift (restart sh)
          end);;
         match lineage with
         | None => vraise (Exn AttributeError "NoneType")
         | Some l => does (Print (deployed_line a installer (fullchain l)))
         end
       else mret tt);;
      engine (_suggest_donation_if_appropriate config act)
  end.

End verbs.

(** Observations on the calls of a verb function. *)
Definition is_deploy (c : call) : bool :=
  match c with DeployCertificate _ _ _ _ _ => true | _ => false end.

Definition is_engine (c : call) : bool :=
  match c with Engine _ => true | _ => false end.

Definition is_restart (c : call) : bool :=
  match c with Restart => true | _ => false end.

Definition is_save_certificate (c : call) : bool :=
  match c with SaveCertificate _ _ _ => true | _ => false end.

(** ** The exception handler *)

Module PyText.

Fixpoint skip (n : nat) (s : string) : string :=
  match n, s with
  | S n', String _ s' => skip n' s'
  | _, _ => s
  end.

(** [s.partition(sep)] for a non-empty [sep]: the text before the first
    occurrence of [sep], [sep], and the text after it; [(s, "", "")]
    when [sep] does not occur. *)
Fixpoint partition (sep s : string) {struct s} : string * string * string :=
  if PyStr.startswith sep s then ("", sep, skip (String.length sep) s)
  else
    match s with
    | EmptyString => ("", "", "")
    | String c s' => let '(h, m, t) := partition sep s' in (String c h, m, t)
    end.

End PyText.

(** What the handler is told about the exception: the value, whether its
    class derives from [Exception], and the two renderings the
    [traceback] module gives of it (the whole traceback joined, and the
    first line of [format_exception_only]). *)
Record ExcInfo := {
  exc_value : exn;
  is_Exception : bool;
  format_exception : string;
  format_exception_only : string
}.

(** The argument of [sys.exit]: a text, or the exception value itself. *)
Inductive exit_arg :=
| ExitText (text : string)
| ExitValue (value : exn).

(** The handler ends in [sys.exit], or fails with an exception of its
    own. *)
Inductive handled :=
| Exits (arg : exit_arg)
| Fails (e : exn).

Section handler.
(** [cli.flag_default("verbose_count")], and whether the traceback could
    be written to the log file opened when there is no configuration. *)
Context (flag_default_verbose_count : Z) (logfile_written : bool).

Definition logfile : string := "letsencrypt.log".

Definition unexpected_msg (err : string) (config : option args.t) : string :=
  "An unexpected error occurred:" +:+ nl +:+ err +:+ "Please see the " +:+
  match config with
  | None => "logfile '" +:+ logfile +:+ "' for more details."
  | Some c => "logfiles in " +:+ args.logs_dir c +:+ " for more details."
  end.

(** The text shown for an exception outside the [errors.Error] hierarchy:
    [None] when reading [config.verbose_count] fails for want of a
    configuration. *)
Definition pruned (err : string) (config : option args.t) : option string :=
  if PyStr.contains "urn:acme" err && PyStr.contains ":: " err then
    match config with
    | None => None
    | Some c =>
        if (args.verbose_count c <=? flag_default_verbose_count)%Z
        then Some (PyText.partition ":: " err).2
        else Some err
    end
  else Some err.

Definition _handle_exception (i : ExcInfo) (config : option args.t) : handled :=
  let traceback := Exits (ExitText (format_exception i)) in
  if is_Exception i &&
     match config with None => true | Some c => negb (args.debug c) end
  then
    if match config with None => negb logfile_written | Some _ => false end
    then traceback
    else if is_errors_Error (exc_value i) then Exits (ExitValue (exc_value i))
    else
      match pruned (format_exception_only i) config with
      | None =>
          Fails (Exn AttributeError
                   "'NoneType' object has no attribute 'verbose_count'")
      | Some err => Exits (ExitText (unexpected_msg err config))
      end
  else traceback.

End handler.

(** ** Log handler and displayer *)

Inductive handler_class := StreamHandler | DialogHandler.

Record LogHandler := {
  handler_class_of : handler_class;
  handler_fmt : string;
  handler_level : Z
}.

Definition _cli_log_handler (config : Config) (a : args.t) (level : Z)
    (fmt : string) : LogHandler :=
  if args.text_mode a || args.noninteractive_mode a ||
     String.eqb (verb config) "renew"
  then {| handler_class_of := StreamHandler; handler_fmt := fmt;
          handler_level := level |}
  else {| handler_class_of := DialogHandler; handler_fmt := "%(message)s";
          handler_level := level |}.

Inductive displayer := NoninteractiveDisplay | FileDisplay | NcursesDisplay.

(** The displayer block of [main]: the displayer provided, and the
    configuration afterwards (the verb "renew" switches it to
    non-interactive mode). *)
Definition main_displayer (config : Config) (a : args.t) : displayer * args.t :=
  if args.noninteractive_mode a then (NoninteractiveDisplay, a)
  else if args.text_mode a then (FileDisplay, a)
  else if String.eqb (verb config) "renew"
       then (NoninteractiveDisplay, args.set_noninteractive_mode true a)
       else (NcursesDisplay, a).

(** ** Variations of the collaborators *)

(** The collaborators with another registration and another e-mail
    prompt. *)
Definition with_registration
    (r : Config -> (string -> M bool) -> M (Account * string))
    (g : res string) (env : Env) : Env :=
  {| STAGING_URI := STAGING_URI env; CANCEL := CANCEL env; argv := argv env;
     dirname := dirname env; should_renew := should_renew env;
     issuer_repr := issuer_repr env;
     make_or_verify_dir := make_or_verify_dir env;
     renewal_conf_files := renewal_conf_files env;
     yesno_answer := yesno_answer env; menu_answer := menu_answer env;
     obtain_certificate := obtain_certificate env;
     obtain_and_enroll_certificate := obtain_and_enroll_certificate env;
     get_sans_from_cert := get_sans_from_cert env;
     notAfter_date := notAfter_date env;
     account_load := account_load env;
     account_find_all := account_find_all env;
     choose_account := choose_account env;
     get_email := g;
     register := r |}.

(** ** Further sample collaborators *)

Module Cases.

Definition broken : string * res RenewableCert :=
  ("/etc/letsencrypt/renewal/old.conf", Raise (Exn CertStorageError "no cert")).

(** A renewal file whose loading fails outside the two tolerated ways. *)
Definition garbled : string * res RenewableCert :=
  ("/etc/letsencrypt/renewal/bad.conf", Raise (Exn (Foreign "ValueError") "bad")).

Definition env_a : Env := Sample.env [("a", Ok Sample.a)] Sample.boom.
Definition env_broken_a : Env := Sample.env [broken; ("a", Ok Sample.a)] Sample.boom.
Definition env_broken_garbled_a : Env :=
  Sample.env [broken; garbled; ("a", Ok Sample.a)] Sample.boom.

(** Collaborators whose protocol client enrols nothing. *)
Definition env_no_issuance : Env :=
  {| STAGING_URI := Sample.staging_uri;
     CANCEL := "cancel";
     argv := ["letsencrypt"; "certonly"];
     dirname := fun p => p;
     should_renew := fun _ _ => false;
     issuer_repr := fun _ => Ok "<X509Name object '/CN=Lets Encrypt Authority X1'>";
     make_or_verify_dir := Ok tt;
     renewal_conf_files := [];
     yesno_answer := fun _ => false;
     menu_answer := fun _ _ => ("cancel", 0%Z);
     obtain_certificate := fun _ => Raise (Exn (Foreign "ConnectionError") "down");
     obtain_and_enroll_certificate := fun _ => Ok NotEnrolled;
     get_sans_from_cert := fun _ => ["a.com"];
     notAfter_date := fun _ => Ok "2016-05-01";
     account_load := fun _ => Raise (Exn (OtherError "AccountNotFound") "");
     account_find_all := [];
     choose_account := fun _ => None;
     get_email := Ok "admin@example.com";
     register := fun _ _ => ([], Raise Sample.boom) |}.

Definition certonly_reinstall : Config :=
  {| staging := false; verb := "certonly"; server := Sample.production_uri;
     break_my_certs := false; dry_run := false; expand := false;
     renew_by_default := false; reinstall := true; duplicate := false;
     tos := true; register_unsafely_without_email := true;
     account := None; email := None |}.

Definition certonly_duplicate : Config :=
  {| staging := false; verb := "certonly"; server := Sample.production_uri;
     break_my_certs := false; dry_run := false; expand := false;
     renew_by_default := false; reinstall := false; duplicate := true;
     tos := true; register_unsafely_without_email := true;
     account := None; email := None |}.

Definition alice : Account := {| acc_id := "a1b2c3" |}.

(** Collaborators with one stored account and a registration that would
    succeed with another. *)
Definition env_one_account : Env :=
  {| STAGING_URI := Sample.staging_uri;
     CANCEL := "cancel";
     argv := ["letsencrypt"; "certonly"];
     dirname := fun p => p;
     should_renew := fun _ _ => false;
     issuer_repr := fun _ => Ok "<X509Name object '/CN=Lets Encrypt Authority X1'>";
     make_or_verify_dir := Ok tt;
     renewal_conf_files := [];
     yesno_answer := fun _ => true;
     menu_answer := fun _ _ => ("ok", 1%Z);
     obtain_certificate := fun _ => Ok Sample.obtained;
     obtain_and_enroll_certificate := fun d => Ok (Enrolled (Sample.lineage "new" d));
     get_sans_from_cert := fun _ => ["a.com"];
     notAfter_date := fun _ => Ok "2016-05-01";
     account_load := fun _ => Raise (Exn (OtherError "AccountNotFound") "");
     account_find_all := [alice];
     choose_account := fun _ => None;
     get_email := Ok "admin@example.com";
     register := fun _ _ => ([], Ok ({| acc_id := "fresh" |}, "acme")) |}.

(** Further collaborators around [Cases.env_one_account]: an installer
    and an authenticator are found, nothing is configured to ask for,
    and every call succeeds. *)
Definition shell : Shell :=
  {| core := env_one_account;
     choose_configurator_plugins := fun _ => Ok (Some "apache", Some "apache");
     choose_names := fun _ => ["a.com"];
     deploy_certificate := fun _ => Ok tt;
     enhance_config := fun _ => Ok tt;
     obtain_certificate_from_csr := fun _ _ _ => Ok ("CERT", "CHAIN");
     save_certificate := fun _ _ _ => Ok ("/tmp/0000_cert.pem", "/tmp/0000_chain.pem");
     restart := Ok tt;
     privkey := fun l => cert l +:+ ".key";
     chain := fun l => cert l +:+ ".chain" |}.

(** The same with a plugin selection that fails. *)
Definition shell_no_plugin : Shell :=
  {| core := env_one_account;
     choose_configurator_plugins := fun _ =>
       Raise (Exn (OtherError "PluginSelectionError") "No installer found");
     choose_names := fun _ => ["a.com"];
     deploy_certificate := fun _ => Ok tt;
     enhance_config := fun _ => Ok tt;
     obtain_certificate_from_csr := fun _ _ _ => Ok ("CERT", "CHAIN");
     save_certificate := fun _ _ _ => Ok ("/tmp/0000_cert.pem", "/tmp/0000_chain.pem");
     restart := Ok tt;
     privkey := fun l => cert l +:+ ".key";
     chain := fun l => cert l +:+ ".chain" |}.

Definition no_args : args.t :=
  {| args.domains := []; args.csr := None; args.actual_csr := ("", "");
     args.key_path := None; args.cert_path := None; args.chain_path := None;
     args.fullchain_path := None; args.installer := "apache";
     args.debug := false; args.verbose_count := (-3)%Z;
     args.logs_dir := "/var/log/letsencrypt";
     args.text_mode := false; args.noninteractive_mode := false |}.

Definition csr_args : args.t :=
  {| args.domains := ["a.com"]; args.csr := Some "req.der";
     args.actual_csr := ("CSR", "der");
     args.key_path := None; args.cert_path := Some "/tmp/cert.pem";
     args.chain_path := Some "/tmp/chain.pem";
     args.fullchain_path := Some "/tmp/fullchain.pem";
     args.installer := "apache";
     args.debug := false; args.verbose_count := (-3)%Z;
     args.logs_dir := "/var/log/letsencrypt";
     args.text_mode := false; args.noninteractive_mode := false |}.

Definition install_args : args.t :=
  {| args.domains := ["a.com"]; args.csr := None; args.actual_csr := ("", "");
     args.key_path := Some "/tmp/key.pem"; args.cert_path := Some "/tmp/cert.pem";
     args.chain_path := Some "/tmp/chain.pem";
     args.fullchain_path := None; args.installer := "apache";
     args.debug := false; args.verbose_count := (-3)%Z;
     args.logs_dir := "/var/log/letsencrypt";
     args.text_mode := false; args.noninteractive_mode := false |}.

(** An exception of the protocol library, outside the [errors.Error]
    hierarchy. *)
Definition protocol_error : exn :=
  Exn (Foreign "acme.messages.Error") "urn:acme:error:malformed".

(** An error of the protocol library as [format_exception_only] shows
    it. *)
Definition acme_error : ExcInfo :=
  {| exc_value := Exn (Foreign "acme.messages.Error") "malformed";
     is_Exception := true;
     format_exception := "Traceback (most recent call last): ...";
     format_exception_only :=
       "acme.messages.Error: urn:acme:error:malformed :: The request " +:+
       "message was malformed :: Error creating new registration" +:+ nl |}.

End Cases.

(** * Properties *)

(** Unfolds the monad operations so that a computation on known inputs
    reduces to its trace and outcome. *)
Ltac msimpl :=
  cbn [mbind mret M_bind M_ret bind ret raise emit lift try_except after
       trace outcome fst snd app] in *.

(** Settles a decidable statement on concrete data by evaluation. *)
Ltac compute_decision :=
  refine (bool_decide_unpack _ _); vm_compute; exact I.

(** ** Substring search *)

Lemma startswith_spec needle hay :
  PyStr.startswith needle hay = true <-> exists post, hay = needle +:+ post.
Proof.
  revert hay. induction needle as [|a n IH]; intros hay; simpl.
  - split; [intros _; by exists hay | done].
  - destruct hay as [|b h].
    + split; [done | intros [post Hp]; discriminate Hp].
    + rewrite andb_true_iff, Ascii.eqb_eq, IH. split.
      * intros [-> [post ->]]. by exists post.
      * intros [post Hp]. injection Hp as -> ->. eauto.
Qed.

Lemma contains_spec needle hay :
  PyStr.contains needle hay = true <->
  exists pre post, hay = pre +:+ needle +:+ post.
Proof.
  induction hay as [|b h IH]; simpl; rewrite orb_true_iff, startswith_spec.
  - split.
    + intros [[post Hp]|?]; [|done]. by exists "", post.
    + intros [pre [post Hp]]. left. destruct pre; [by exists post | discriminate Hp].
  - rewrite IH. split.
    + intros [[post Hp]|[pre [post Hp]]].
      * by exists "", post.
      * exists (String b pre), post. simpl. by rewrite Hp.
    + intros [pre [post Hp]]. destruct pre as [|c pre]; simpl in Hp.
      * left. by exists post.
      * right. injection Hp as -> ->. eauto.
Qed.

(** ** Letter case *)








(** ** The staging guard *)



(** C2, as the code has it. The classification holds exactly for the
    staging constant and for the URIs in which the lower-case letters
    "staging" occur as written; the match is case-sensitive. *)
Theorem C2_is_staging_case_sensitive env srv :
  _is_staging env srv = true <->
  srv = STAGING_URI env \/ exists pre post, srv = pre +:+ "staging" +:+ post.
Proof.
  unfold _is_staging. by rewrite orb_true_iff, String.eqb_eq, contains_spec.
Qed.

(** C2, as stated, fails: a URI spelling the word in capitals is staging
    under the case-insensitive rule and is not for the guard. *)
Lemma C2_counterexample :
  ~ (forall env srv,
       _is_staging env srv = true <->
       spec_is_staging (STAGING_URI env) srv = true).
Proof.
  intros H.
  specialize (H Sample.env_none "https://acme-STAGING.example.org/directory").
  destruct H as [_ H]. discriminate (H eq_refl).
Qed.

(** ** The duplicate matcher *)

Section matcher_facts.
Context (domains : list string).

Local Abbreviation D := (list_to_set domains : gset string).
Local Abbreviation found_pair :=
  (option RenewableCert * option RenewableCert)%type.

Lemma scan_snoc ls c (found : found_pair) :
  scan domains (ls ++ [c]) found = consider domains c (scan domains ls found).
Proof. unfold scan. by rewrite foldl_app. Qed.

Lemma scan_app ls1 ls2 (found : found_pair) :
  scan domains (ls1 ++ ls2) found = scan domains ls2 (scan domains ls1 found).
Proof. unfold scan. by rewrite foldl_app. Qed.

Lemma consider_identical c (found : found_pair) :
  name_set c = D -> consider domains c found = (Some c, found.2).
Proof.
  intros Heq. destruct found as [i s]. unfold consider.
  fold (name_set c). by rewrite bool_decide_eq_true_2.
Qed.

Lemma consider_not_identical_fst c (found : found_pair) :
  name_set c ≠ D -> (consider domains c found).1 = found.1.
Proof.
  intros Hne. destruct found as [i s]. unfold consider. fold (name_set c).
  rewrite bool_decide_eq_false_2 by done.
  case_bool_decide; [|done]. destruct s; [|done]. by case_match.
Qed.

Lemma consider_not_subset c (found : found_pair) :
  ¬ name_set c ⊆ D -> consider domains c found = found.
Proof.
  intros Hns. destruct found as [i s]. unfold consider. fold (name_set c).
  rewrite bool_decide_eq_false_2.
  - by rewrite bool_decide_eq_false_2.
  - intros Heq. apply Hns. by rewrite Heq.
Qed.

(** Without an identical lineage the first component is left alone. *)
Lemma scan_no_identical ls (found : found_pair) :
  (forall c, c ∈ ls -> name_set c ≠ D) ->
  (scan domains ls found).1 = found.1.
Proof.
  induction ls as [|c ls IH] using rev_ind; intros Hne; [done|].
  rewrite scan_snoc, consider_not_identical_fst.
  - apply IH. intros x Hx. apply Hne. set_solver.
  - apply Hne. set_solver.
Qed.

(** The identical result is the last lineage of that name set. *)
Lemma scan_identical_last pre l post (found : found_pair) :
  name_set l = D ->
  (forall x, x ∈ post -> name_set x ≠ D) ->
  (scan domains (pre ++ l :: post) found).1 = Some l.
Proof.
  intros Heq Hpost.
  rewrite scan_app. change (l :: post) with ([l] ++ post).
  rewrite scan_app, scan_no_identical by done.
  unfold scan at 1. simpl. by rewrite consider_identical.
Qed.

(** No lineage contained in the request: nothing is found. *)
Lemma scan_no_candidate ls :
  (forall c, c ∈ ls -> ¬ name_set c ⊆ D) ->
  scan domains ls (None, None) = (None, None).
Proof.
  induction ls as [|c ls IH] using rev_ind; intros Hns; [done|].
  rewrite scan_snoc, IH, consider_not_subset; [done| |].
  - apply Hns. set_solver.
  - intros x Hx. apply Hns. set_solver.
Qed.

Lemma find_loop_scan files (found : found_pair) :
  loads_or_broken files ->
  find_loop domains files found =
  (broken_log files, Ok (scan domains (readable files) found)).
Proof.
  revert found. induction files as [|[f r] files IH]; intros found Hok.
  - reflexivity.
  - apply Forall_cons in Hok as [Hr Hok]. simpl in Hr.
    destruct r as [c|e]; simpl.
    + by rewrite IH.
    + rewrite Hr. msimpl. by rewrite IH.
Qed.

End matcher_facts.

Lemma last_such {A} (P : A -> Prop) `{!forall x, Decision (P x)} (ls : list A) :
  (exists l, l ∈ ls /\ P l) ->
  exists pre l post, ls = pre ++ l :: post /\ P l /\ forall x, x ∈ post -> ¬ P x.
Proof.
  induction ls as [|c ls IH]; intros [l [Hin HP]].
  - by apply elem_of_nil in Hin.
  - destruct (decide (Exists P ls)) as [Hex|Hnex].
    + apply Exists_exists in Hex. destruct (IH Hex) as (pre & l' & post & -> & ? & ?).
      by exists (c :: pre), l', post.
    + exists [], c, ls. split; [done|]. split.
      * apply elem_of_cons in Hin as [->|Hin]; [done|].
        exfalso. apply Hnex, Exists_exists. eauto.
      * intros x Hx HPx. apply Hnex, Exists_exists. eauto.
Qed.

Lemma find_duplicative_certs_scan env config domains :
  make_or_verify_dir env = Ok tt ->
  loads_or_broken (renewal_conf_files env) ->
  _find_duplicative_certs env config domains =
  (broken_log (renewal_conf_files env),
   Ok (scan domains (readable (renewal_conf_files env)) (None, None))).
Proof.
  intros Hdir Hok. unfold _find_duplicative_certs.
  rewrite Hdir, find_loop_scan by done. reflexivity.
Qed.

Lemma treat_as_renewal_dispatch env config domains t found :
  duplicate config = false ->
  _find_duplicative_certs env config domains = (t, Ok found) ->
  _treat_as_renewal env config domains = after t (dispatch env config domains found).
Proof.
  intros Hdup Hfind. unfold _treat_as_renewal. rewrite Hdup, Hfind.
  msimpl. unfold after, dispatch.
  destruct found as [[i|] [s|]]; simpl;
    first [ by destruct (_handle_identical_cert_request env config i)
          | by destruct (_handle_subset_cert_request env config domains s)
          | done ].
Qed.

(** C3. When some readable lineage has exactly the requested names, the
    matcher's identical result is the last such lineage in enumeration
    order, and the resolver hands the request to the identical-match
    handler on it, whatever subset candidates there are; whichever answer
    the matcher gives, one handler alone produces the resolved action, the
    subset handler only when there is no identical match. *)
Theorem C3_identical_takes_priority env config domains :
  duplicate config = false ->
  make_or_verify_dir env = Ok tt ->
  loads_or_broken (renewal_conf_files env) ->
  (exists l, l ∈ readable (renewal_conf_files env) /\
             name_set l = list_to_set domains) ->
  (exists pre l post subset,
      readable (renewal_conf_files env) = pre ++ l :: post /\
      name_set l = list_to_set domains /\
      (forall x, x ∈ post -> name_set x ≠ list_to_set domains) /\
      _find_duplicative_certs env config domains =
        (broken_log (renewal_conf_files env), Ok (Some l, subset)) /\
      _treat_as_renewal env config domains =
        after (broken_log (renewal_conf_files env))
              (_handle_identical_cert_request env config l))
  /\ (forall t found,
        _find_duplicative_certs env config domains = (t, Ok found) ->
        _treat_as_renewal env config domains =
          after t (match found with
                   | (Some c, _) => _handle_identical_cert_request env config c
                   | (None, Some c) =>
                       _handle_subset_cert_request env config domains c
                   | (None, None) => ret (newcert_action, None)
                   end)).
Proof.
  intros Hdup Hdir Hok Hex. split.
  - apply (last_such (fun l => name_set l = list_to_set domains)) in Hex
      as (pre & l & post & Hls & Heq & Hpost).
    pose proof (find_duplicative_certs_scan env config domains Hdir Hok) as Hfind.
    pose proof (scan_identical_last domains pre l post (None, None) Heq Hpost) as Hl.
    rewrite <- Hls in Hl.
    destruct (scan domains (readable (renewal_conf_files env)) (None, None))
      as [i s] eqn:Hscan. simpl in Hl. subst i.
    exists pre, l, post, s. split_and!; try done.
    by rewrite (treat_as_renewal_dispatch _ _ _ _ _ Hdup Hfind).
  - intros t found Hfind.
    by rewrite (treat_as_renewal_dispatch _ _ _ _ _ Hdup Hfind).
Qed.

Lemma C3_identical_takes_priority_witness :
  exists l,
    name_set l = list_to_set ["a.com"; "b.com"] /\
    _treat_as_renewal Sample.env_a_ab Sample.certonly ["a.com"; "b.com"] =
      after [] (_handle_identical_cert_request Sample.env_a_ab Sample.certonly l).
Proof.
  destruct (C3_identical_takes_priority Sample.env_a_ab Sample.certonly
              ["a.com"; "b.com"])
    as [(pre & l & post & s & _ & Hn & _ & _ & Ht) _].
  - reflexivity.
  - reflexivity.
  - repeat constructor.
  - exists Sample.ab. split; [|reflexivity]. vm_compute. set_solver.
  - exists l. split; [exact Hn | exact Ht].
Defined.

Lemma consider_subset domains c i s :
  name_set c ≠ list_to_set domains ->
  name_set c ⊆ list_to_set domains ->
  consider domains c (i, s) =
  match s with
  | None => (i, Some c)
  | Some b => if length (names b) <? size (name_set c)
              then (i, Some c) else (i, Some b)
  end.
Proof.
  intros Hne Hsub. unfold consider. fold (name_set c).
  rewrite bool_decide_eq_false_2, bool_decide_eq_true_2 by done.
  by destruct s.
Qed.

(** With duplicate-free name lists and no identical lineage, the subset
    result is the first lineage of the largest size among those contained
    in the request. *)
Lemma scan_largest_subset domains ls :
  (forall c, c ∈ ls -> NoDup (names c)) ->
  (forall c, c ∈ ls -> name_set c ≠ list_to_set domains) ->
  (scan domains ls (None, None) = (None, None) /\
   forall c, c ∈ ls -> ¬ name_set c ⊆ list_to_set domains)
  \/ exists pre l post,
       ls = pre ++ l :: post /\
       scan domains ls (None, None) = (None, Some l) /\
       name_set l ⊆ list_to_set domains /\
       (forall c, c ∈ pre -> name_set c ⊆ list_to_set domains ->
                  size (name_set c) < size (name_set l)) /\
       (forall c, c ∈ post -> name_set c ⊆ list_to_set domains ->
                  size (name_set c) <= size (name_set l)).
Proof.
  induction ls as [|c ls IH] using rev_ind; intros Hnd Hne.
  { left. split; [done|]. intros c Hc. by apply elem_of_nil in Hc. }
  assert (Hc_ne : name_set c ≠ list_to_set domains) by (apply Hne; set_solver).
  destruct IH as [[Hscan Hnone]|(pre & l & post & -> & Hscan & Hl & Hpre & Hpost)].
  { intros x Hx. apply Hnd. set_solver. }
  { intros x Hx. apply Hne. set_solver. }
  - rewrite scan_snoc, Hscan.
    destruct (decide (name_set c ⊆ list_to_set domains)) as [Hsub|Hnsub].
    + right. exists ls, c, []. rewrite consider_subset by done.
      split_and!; try done.
      * intros x Hx Hxs. by destruct (Hnone x Hx).
      * intros x Hx. by apply elem_of_nil in Hx.
    + left. rewrite consider_not_subset by done. split; [done|].
      intros x Hx. apply elem_of_app in Hx as [Hx|Hx]; [by apply Hnone|].
      apply list_elem_of_singleton in Hx as ->. done.
  - right. rewrite scan_snoc, Hscan.
    assert (Hlen : length (names l) = size (name_set l)).
    { unfold name_set. rewrite size_list_to_set; [done|]. apply Hnd. set_solver. }
    destruct (decide (name_set c ⊆ list_to_set domains)) as [Hsub|Hnsub].
    + rewrite consider_subset by done. rewrite Hlen.
      destruct (size (name_set l) <? size (name_set c)) eqn:Hlt.
      * apply Nat.ltb_lt in Hlt.
        exists (pre ++ l :: post), c, []. split_and!; try done.
        -- intros x Hx Hxs. apply elem_of_app in Hx as [Hx|Hx].
           ++ specialize (Hpre x Hx Hxs). lia.
           ++ apply elem_of_cons in Hx as [->|Hx]; [done|].
              specialize (Hpost x Hx Hxs). lia.
        -- intros x Hx. by apply elem_of_nil in Hx.
      * apply Nat.ltb_ge in Hlt.
        exists pre, l, (post ++ [c]). split_and!; try done.
        -- by rewrite <- app_assoc.
        -- intros x Hx Hxs. apply elem_of_app in Hx as [Hx|Hx]; [by apply Hpost|].
           by apply list_elem_of_singleton in Hx as ->.
    + rewrite consider_not_subset by done.
      exists pre, l, (post ++ [c]). split_and!; try done.
      * by rewrite <- app_assoc.
      * intros x Hx Hxs. apply elem_of_app in Hx as [Hx|Hx]; [by apply Hpost|].
        by apply list_elem_of_singleton in Hx as ->.
Qed.

(** C4. Let the name lists be duplicate-free, as name sets are, and let no
    readable lineage be identical to the request. If l1 and l2 are both
    contained in the request and l2 has more names, the matcher's subset
    result is the first lineage of the largest size among all contained
    lineages: every contained lineage enumerated before it is strictly
    smaller and none after it is larger. It is therefore never l1, is at
    least as large as l2, and is l2 itself when l1 and l2 are the only
    contained lineages. *)
Theorem C4_largest_subset_wins env config domains l1 l2 :
  make_or_verify_dir env = Ok tt ->
  loads_or_broken (renewal_conf_files env) ->
  (forall c, c ∈ readable (renewal_conf_files env) -> NoDup (names c)) ->
  (forall c, c ∈ readable (renewal_conf_files env) ->
             name_set c ≠ list_to_set domains) ->
  l1 ∈ readable (renewal_conf_files env) ->
  l2 ∈ readable (renewal_conf_files env) ->
  name_set l1 ⊆ list_to_set domains ->
  name_set l2 ⊆ list_to_set domains ->
  size (name_set l1) < size (name_set l2) ->
  exists pre l post,
    readable (renewal_conf_files env) = pre ++ l :: post /\
    _find_duplicative_certs env config domains =
      (broken_log (renewal_conf_files env), Ok (None, Some l)) /\
    name_set l ⊆ list_to_set domains /\
    (forall c, c ∈ pre -> name_set c ⊆ list_to_set domains ->
               size (name_set c) < size (name_set l)) /\
    (forall c, c ∈ post -> name_set c ⊆ list_to_set domains ->
               size (name_set c) <= size (name_set l)) /\
    l ≠ l1 /\
    size (name_set l2) <= size (name_set l) /\
    ((forall c, c ∈ readable (renewal_conf_files env) ->
                name_set c ⊆ list_to_set domains -> c = l1 \/ c = l2) ->
     l = l2).
Proof.
  intros Hdir Hok Hnd Hne Hin1 Hin2 Hs1 Hs2 Hlt.
  rewrite (find_duplicative_certs_scan env config domains Hdir Hok).
  destruct (scan_largest_subset domains _ Hnd Hne)
    as [[_ Hnone]|(pre & l & post & Hls & Hscan & Hl & Hpre & Hpost)].
  { by destruct (Hnone l1 Hin1). }
  assert (Hbig : forall c, c ∈ readable (renewal_conf_files env) ->
                           name_set c ⊆ list_to_set domains ->
                           size (name_set c) <= size (name_set l)).
  { intros c Hc Hcs. rewrite Hls in Hc. apply elem_of_app in Hc as [Hc|Hc].
    - specialize (Hpre c Hc Hcs). lia.
    - apply elem_of_cons in Hc as [->|Hc]; [done|]. by apply Hpost. }
  assert (Hl1 : l ≠ l1).
  { intros ->. specialize (Hbig l2 Hin2 Hs2). lia. }
  exists pre, l, post. rewrite Hscan. split_and!; try done.
  - by apply Hbig.
  - intros Honly. destruct (Honly l) as [?|?]; try done.
    rewrite Hls. set_solver.
Qed.

Lemma C4_largest_subset_wins_witness :
  outcome (_find_duplicative_certs Sample.env_ab_a Sample.certonly
             ["a.com"; "b.com"; "c.com"])
  = Ok (None, Some Sample.ab).
Proof.
  destruct (C4_largest_subset_wins Sample.env_ab_a Sample.certonly
              ["a.com"; "b.com"; "c.com"] Sample.a Sample.ab)
    as (pre & l & post & _ & Hfind & _ & _ & _ & _ & _ & Honly).
  - reflexivity.
  - repeat constructor.
  - intros c Hc. apply list_elem_of_In in Hc. simpl in Hc.
    destruct Hc as [<-|[<-|[]]]; compute_decision.
  - intros c Hc. apply list_elem_of_In in Hc. simpl in Hc.
    destruct Hc as [<-|[<-|[]]]; compute_decision.
  - apply list_elem_of_In. simpl. auto.
  - apply list_elem_of_In. simpl. auto.
  - compute_decision.
  - compute_decision.
  - vm_compute. lia.
  - rewrite Hfind. rewrite Honly; [reflexivity|].
    intros c Hc _. apply list_elem_of_In in Hc. simpl in Hc.
    destruct Hc as [<-|[<-|[]]]; auto.
Defined.

(** A lineage whose name list repeats an entry is measured by the length
    of the list once it is the current subset result: here the lineage
    with the single name "a.com", listed three times, is kept over the
    lineage with two names. *)
Example repeated_names_outweigh :
  scan ["a.com"; "b.com"; "c.com"]
       [Sample.lineage "aaa" ["a.com"; "a.com"; "a.com"]; Sample.ab]
       (None, None)
  = (None, Some (Sample.lineage "aaa" ["a.com"; "a.com"; "a.com"])).
Proof. vm_compute. reflexivity. Qed.

(** What the matcher returns comes from the enumeration and stands in the
    relation that its slot names. *)
Lemma scan_sound domains ls :
  (forall c, (scan domains ls (None, None)).1 = Some c ->
             c ∈ ls /\ name_set c = list_to_set domains) /\
  (forall c, (scan domains ls (None, None)).2 = Some c ->
             c ∈ ls /\ name_set c ⊆ list_to_set domains /\
             name_set c ≠ list_to_set domains).
Proof.
  induction ls as [|x ls [IH1 IH2]] using rev_ind; [done|].
  rewrite scan_snoc.
  destruct (scan domains ls (None, None)) as [i s]. simpl in IH1, IH2.
  assert (Hx : x ∈ ls ++ [x]).
  { apply elem_of_app. right. by apply list_elem_of_singleton. }
  assert (H1 : forall c, i = Some c ->
                         c ∈ ls ++ [x] /\ name_set c = list_to_set domains).
  { intros c Hc. destruct (IH1 c Hc). split; [|done].
    apply elem_of_app. by left. }
  assert (H2 : forall c, s = Some c ->
                         c ∈ ls ++ [x] /\ name_set c ⊆ list_to_set domains /\
                         name_set c ≠ list_to_set domains).
  { intros c Hc. destruct (IH2 c Hc) as (? & ? & ?). split; [|done].
    apply elem_of_app. by left. }
  destruct (decide (name_set x = list_to_set domains)) as [Heq|Hne].
  { rewrite consider_identical by done. simpl. split; [|done].
    by intros c [= <-]. }
  destruct (decide (name_set x ⊆ list_to_set domains)) as [Hsub|Hnsub].
  - rewrite consider_subset by done.
    assert (forall c, Some x = Some c ->
                      c ∈ ls ++ [x] /\ name_set c ⊆ list_to_set domains /\
                      name_set c ≠ list_to_set domains).
    { by intros c [= <-]. }
    destruct s as [b|]; [destruct (_ <? _)|]; done.
  - by rewrite consider_not_subset by done.
Qed.

(** C5, as the code has it. The matcher tests whether a lineage's names are
    contained in the request: a lineage whose names strictly contain the
    request is returned neither as identical nor as subset; and when no
    readable lineage's name set is contained in the request (so none
    equals it), the matcher finds nothing and the resolver yields the
    newcert action. *)
Theorem C5_superset_is_no_match env config domains :
  make_or_verify_dir env = Ok tt ->
  loads_or_broken (renewal_conf_files env) ->
  (forall l identical subset,
      l ∈ readable (renewal_conf_files env) ->
      list_to_set domains ⊂ name_set l ->
      outcome (_find_duplicative_certs env config domains)
        = Ok (identical, subset) ->
      identical ≠ Some l /\ subset ≠ Some l)
  /\ ((forall c, c ∈ readable (renewal_conf_files env) ->
                 ¬ name_set c ⊆ list_to_set domains) ->
      _find_duplicative_certs env config domains =
        (broken_log (renewal_conf_files env), Ok (None, None)) /\
      outcome (_treat_as_renewal env config domains) = Ok (newcert_action, None)).
Proof.
  intros Hdir Hok.
  pose proof (find_duplicative_certs_scan env config domains Hdir Hok) as Hfind.
  split.
  - intros l i s Hin Hsup Hout. rewrite Hfind in Hout. simpl in Hout.
    injection Hout as Hscan.
    destruct (scan_sound domains (readable (renewal_conf_files env))) as [H1 H2].
    rewrite Hscan in H1, H2. simpl in H1, H2. split.
    + intros ->. destruct (H1 l eq_refl) as [_ Heq].
      destruct Hsup as [_ Hns]. apply Hns. by rewrite Heq.
    + intros ->. destruct (H2 l eq_refl) as (_ & Hsub & _).
      destruct Hsup as [_ Hns]. by apply Hns.
  - intros Hnone. rewrite Hfind, scan_no_candidate by done. split; [done|].
    destruct (duplicate config) eqn:Hdup.
    + unfold _treat_as_renewal. by rewrite Hdup.
    + rewrite (treat_as_renewal_dispatch env config domains
                 (broken_log (renewal_conf_files env)) (None, None) Hdup).
      * done.
      * by rewrite Hfind, scan_no_candidate.
Qed.

Lemma C5_superset_is_no_match_witness :
  outcome (_treat_as_renewal Sample.env_ab Sample.certonly ["a.com"])
  = Ok (newcert_action, None).
Proof.
  destruct (C5_superset_is_no_match Sample.env_ab Sample.certonly ["a.com"])
    as [_ H].
  - reflexivity.
  - repeat constructor.
  - apply H. intros c Hc. apply list_elem_of_In in Hc. simpl in Hc.
    destruct Hc as [<-|[]]. compute_decision.
Defined.

(** C5, as stated, fails: the request {a.com, b.com} is strictly contained
    in the lineage for a.com, b.com and c.com and equals no lineage, yet
    the lineage for a.com is contained in it and is returned as the subset
    match, which the resolver (expansion allowed) turns into a renewal. *)
Lemma C5_counterexample :
  (exists l, l ∈ readable (renewal_conf_files Sample.env_abc_a) /\
             list_to_set ["a.com"; "b.com"] ⊂ name_set l) /\
  (forall c, c ∈ readable (renewal_conf_files Sample.env_abc_a) ->
             name_set c ≠ list_to_set ["a.com"; "b.com"]) /\
  _find_duplicative_certs Sample.env_abc_a Sample.certonly_expand
    ["a.com"; "b.com"] = ([], Ok (None, Some Sample.a)) /\
  _treat_as_renewal Sample.env_abc_a Sample.certonly_expand
    ["a.com"; "b.com"] = ([], Ok (renew_action, Some Sample.a)).
Proof.
  split_and!.
  - exists Sample.abc. split; [apply list_elem_of_In; simpl; auto|].
    compute_decision.
  - intros c Hc. apply list_elem_of_In in Hc. simpl in Hc.
    destruct Hc as [<-|[<-|[]]]; compute_decision.
  - vm_compute. reflexivity.
  - vm_compute. reflexivity.
Qed.

(** ** Traces of the resolver *)

Lemma bind_trace_Forall {A B} (P : event -> Prop) (m : M A) (f : A -> M B) :
  Forall P (trace m) ->
  (forall a, Forall P (trace (f a))) ->
  Forall P (trace (m ≫= f)).
Proof.
  intros Hm Hf. destruct m as [t [a|e]]; msimpl; [|done].
  specialize (Hf a). destruct (f a) as [t' r]. msimpl.
  by apply Forall_app.
Qed.

Lemma prompt_or_log_quiet ev :
  is_prompt_or_log ev = true ->
  is_persistence_call ev = false /\ is_new_cert_report ev = false.
Proof. by destruct ev as [| | | | ? []| | | | | | | |]. Qed.

Lemma find_loop_events domains files found :
  Forall (fun ev => is_prompt_or_log ev = true)
         (trace (find_loop domains files found)).
Proof.
  revert found. induction files as [|[f [c|e]] files IH]; intros found; simpl.
  - constructor.
  - apply IH.
  - destruct (is_CertStorageError_or_IOError e); [|constructor].
    specialize (IH found). destruct (find_loop domains files found) as [t' r].
    by constructor.
Qed.

Lemma treat_as_renewal_events env config domains :
  Forall (fun ev => is_prompt_or_log ev = true)
         (trace (_treat_as_renewal env config domains)).
Proof.
  unfold _treat_as_renewal. destruct (duplicate config); [constructor|].
  apply bind_trace_Forall.
  - unfold _find_duplicative_certs. apply bind_trace_Forall.
    + destruct (make_or_verify_dir env); constructor.
    + intros _. apply find_loop_events.
  - intros [[c|] [c'|]].
    + unfold _handle_identical_cert_request.
      repeat case_match; msimpl; repeat constructor.
    + unfold _handle_identical_cert_request.
      repeat case_match; msimpl; repeat constructor.
    + unfold _handle_subset_cert_request.
      destruct (expand config), (renew_by_default config),
        (yesno_answer env (subset_question domains c')); msimpl;
        repeat constructor.
    + constructor.
Qed.

Lemma resolve_action_events env config domains lineage :
  Forall (fun ev => is_prompt_or_log ev = true)
         (trace (resolve_action env config domains lineage)).
Proof.
  destruct lineage; [constructor | apply treat_as_renewal_events].
Qed.

Lemma Forall_quiet_persist t :
  Forall (fun ev => is_prompt_or_log ev = true) t ->
  Forall (fun ev => is_persistence_call ev = false) t.
Proof. intros H. eapply Forall_impl; [exact H|]. intros ev Hev. by apply prompt_or_log_quiet. Qed.

Lemma Forall_quiet_report t :
  Forall (fun ev => is_prompt_or_log ev = true) t ->
  Forall (fun ev => is_new_cert_report ev = false) t.
Proof. intros H. eapply Forall_impl; [exact H|]. intros ev Hev. by apply prompt_or_log_quiet. Qed.

(** The guard makes no call: it only reads the current certificate. *)
Lemma guard_trace env config lineage original_server :
  trace (_avoid_invalidating_lineage env config lineage original_server) = [].
Proof.
  unfold _avoid_invalidating_lineage.
  destruct (issuer_repr env (cert lineage)) as [issuer|e]; msimpl; [|done].
  by destruct (_is_staging env (server config)),
              (_is_staging env original_server),
              (now_valid issuer), (break_my_certs config).
Qed.

Lemma guard_passes env config lineage original_server :
  outcome (_avoid_invalidating_lineage env config lineage original_server) = Ok tt ->
  _avoid_invalidating_lineage env config lineage original_server = ([], Ok tt).
Proof.
  intros Hout. pose proof (guard_trace env config lineage original_server) as Htr.
  destruct (_avoid_invalidating_lineage _ _ _ _) as [t r]. simpl in *. by subst.
Qed.

(** ** The lineage store *)

Lemma max_list_is v (l : list nat) :
  v ∈ l -> (forall n, n ∈ l -> n <= v) -> max_list l = v.
Proof.
  intros Hin Hle. apply Nat.le_antisymm; [|by apply max_list_elem_of_le].
  clear Hin. induction l as [|n l IH]; simpl; [lia|].
  apply Nat.max_lub.
  - apply Hle. by left.
  - apply IH. intros m Hm. apply Hle. by right.
Qed.

(** After [save_successor] the latest common version is the version it
    returned. *)
Lemma latest_common_version_save_successor sans l prior c k h :
  latest_common_version (save_successor sans l prior c k h).1
  = (save_successor sans l prior c k h).2.
Proof.
  unfold save_successor, latest_common_version. cbn [fst snd
    versions_cert versions_privkey versions_chain versions_fullchain].
  set (v := next_free_version l).
  assert (Hmem : forall xs : list nat, memb v (xs ++ [v]) = true).
  { intros xs. apply bool_decide_eq_true_2, elem_of_app. right.
    by apply list_elem_of_singleton. }
  apply max_list_is.
  - apply list_elem_of_filter. split.
    + by rewrite !Hmem.
    + apply elem_of_app. right. by apply list_elem_of_singleton.
  - intros n Hn. apply list_elem_of_filter in Hn as [_ Hn].
    apply elem_of_app in Hn as [Hn|Hn].
    + unfold v, next_free_version.
      assert (n <= max_list (versions_cert l ++ versions_privkey l ++
                             versions_chain l ++ versions_fullchain l)); [|lia].
      apply max_list_elem_of_le, elem_of_app. by left.
    + apply list_elem_of_singleton in Hn. lia.
Qed.

(** Once the successor is linked, the names of the lineage are those of
    the certificate saved. *)
Lemma names_after_successor_linked sans l prior c k h :
  names (update_all_links_to (save_successor sans l prior c k h).1
                             (save_successor sans l prior c k h).2) = sans c.
Proof.
  unfold names, names_of_version, update_all_links_to, save_successor. simpl.
  by rewrite Nat.eqb_refl.
Qed.

(** ** The renewal executor *)

Lemma auth_from_domains_renew env config domains lineage t0 l :
  resolve_action env config domains lineage = (t0, Ok (renew_action, Some l)) ->
  _auth_from_domains env config domains lineage =
  after t0 (l' ← renew_lineage env config domains l;
            report_and_return env config (Some l') renew_action).
Proof.
  intros Hres. unfold _auth_from_domains. rewrite Hres. msimpl.
  by destruct (renew_lineage env config domains l ≫= _).
Qed.

Lemma report_and_return_dry env config lo act :
  dry_run config = true ->
  report_and_return env config lo act = ([], Ok (lo, act)).
Proof. intros Hdry. unfold report_and_return. by rewrite Hdry. Qed.

Lemma renew_lineage_dry env config domains l :
  dry_run config = true ->
  outcome (_avoid_invalidating_lineage env config l (renewalparams_server l))
    = Ok tt ->
  renew_lineage env config domains l =
  match obtain_certificate env domains with
  | Ok _ => ([EvObtainCertificate domains;
              EvLog "info" ("Dry run: skipping updating lineage at " +:+
                            dirname env (cert l))], Ok l)
  | Raise e => ([EvObtainCertificate domains], Raise e)
  end.
Proof.
  intros Hdry Hguard. unfold renew_lineage.
  rewrite (guard_passes _ _ _ _ Hguard). msimpl.
  destruct (obtain_certificate env domains); msimpl; [|done].
  by rewrite Hdry.
Qed.

Lemma renew_lineage_dry_trace env config domains l :
  dry_run config = true ->
  Forall (fun ev => is_persistence_call ev = false)
         (trace (renew_lineage env config domains l)).
Proof.
  intros Hdry. unfold renew_lineage.
  pose proof (guard_trace env config l (renewalparams_server l)) as Htr.
  destruct (_avoid_invalidating_lineage _ _ _ _) as [t [[]|e]];
    simpl in Htr; subst t; msimpl; [|constructor].
  destruct (obtain_certificate env domains); msimpl; [|by repeat constructor].
  rewrite Hdry. msimpl. by repeat constructor.
Qed.

Lemma renew_lineage_saves env config domains l new :
  dry_run config = false ->
  outcome (_avoid_invalidating_lineage env config l (renewalparams_server l))
    = Ok tt ->
  obtain_certificate env domains = Ok new ->
  let saved := save_successor (get_sans_from_cert env) l
                 (latest_common_version l) (new_certr_pem new)
                 (new_key_pem new) (new_chain_pem new) in
  renew_lineage env config domains l =
  ([EvObtainCertificate domains;
    EvSaveSuccessor (latest_common_version l) (new_certr_pem new)
                    (new_key_pem new) (new_chain_pem new);
    EvUpdateAllLinksTo saved.2],
   Ok (update_all_links_to saved.1 saved.2)).
Proof.
  intros Hwet Hguard Hnew saved. unfold renew_lineage.
  rewrite (guard_passes _ _ _ _ Hguard), Hnew. msimpl. rewrite Hwet.
  pose proof (latest_common_version_save_successor (get_sans_from_cert env)
                l (latest_common_version l)
                (new_certr_pem new) (new_key_pem new) (new_chain_pem new)) as Hv.
  fold saved in Hv. destruct saved as [l1 v] eqn:Hsaved. unfold saved in Hsaved.
  msimpl. rewrite Hsaved. msimpl. by rewrite Hv.
Qed.

(** C6. In a dry run the executor calls neither [save_successor] nor
    [update_all_links_to], whatever the action and the outcome. When the
    action is a renewal and the staging guard lets it through, the
    protocol client is still asked for a certificate for the requested
    domains, and once it answers the executor returns the unchanged
    lineage with the renew action. *)
Theorem C6_dry_run_persists_nothing env config domains lineage :
  dry_run config = true ->
  Forall (fun ev => is_persistence_call ev = false)
         (trace (_auth_from_domains env config domains lineage))
  /\ forall t0 l,
       resolve_action env config domains lineage
         = (t0, Ok (renew_action, Some l)) ->
       outcome (_avoid_invalidating_lineage env config l
                  (renewalparams_server l)) = Ok tt ->
       (exists t1, trace (_auth_from_domains env config domains lineage)
                   = t0 ++ EvObtainCertificate domains :: t1) /\
       forall new,
         obtain_certificate env domains = Ok new ->
         _auth_from_domains env config domains lineage =
         (t0 ++ [EvObtainCertificate domains;
                 EvLog "info" ("Dry run: skipping updating lineage at " +:+
                               dirname env (cert l))],
          Ok (Some l, renew_action)).
Proof.
  intros Hdry. split.
  - unfold _auth_from_domains. apply bind_trace_Forall.
    { apply Forall_quiet_persist, resolve_action_events. }
    intros [[| |] [l|]]; try by constructor.
    + apply bind_trace_Forall; [by apply renew_lineage_dry_trace|].
      intros l'. rewrite report_and_return_dry by done. constructor.
    + apply bind_trace_Forall; [by repeat constructor|]. intros _.
      apply bind_trace_Forall.
      { destruct (obtain_and_enroll_certificate env domains); constructor. }
      intros [l'| |]; [|constructor|];
        rewrite report_and_return_dry by done; constructor.
    + apply bind_trace_Forall; [by repeat constructor|]. intros _.
      apply bind_trace_Forall.
      { destruct (obtain_and_enroll_certificate env domains); constructor. }
      intros [l'| |]; [|constructor|];
        rewrite report_and_return_dry by done; constructor.
  - intros t0 l Hres Hguard.
    rewrite (auth_from_domains_renew _ _ _ _ _ _ Hres).
    rewrite (renew_lineage_dry _ _ _ _ Hdry Hguard).
    destruct (obtain_certificate env domains) as [new|e]; msimpl.
    + rewrite report_and_return_dry by done. msimpl. split; [by eexists|].
      by intros new' _.
    + split; [by eexists | done].
Qed.

Lemma C6_dry_run_persists_nothing_witness :
  _auth_from_domains Sample.env_none Sample.certonly_dry ["a.com"] (Some Sample.a)
  = ([EvObtainCertificate ["a.com"];
      EvLog "info" ("Dry run: skipping updating lineage at " +:+
                    dirname Sample.env_none (cert Sample.a))],
     Ok (Some Sample.a, renew_action)).
Proof.
  destruct (C6_dry_run_persists_nothing Sample.env_none Sample.certonly_dry
              ["a.com"] (Some Sample.a) eq_refl) as [_ H].
  destruct (H [] Sample.a eq_refl eq_refl) as [_ H'].
  exact (H' Sample.obtained eq_refl).
Defined.

Lemma report_and_return_trace env config lo act :
  Forall (fun ev => is_persistence_call ev = false)
         (trace (report_and_return env config lo act)).
Proof.
  unfold report_and_return, _report_new_cert.
  destruct (negb (dry_run config) && negb (String.eqb (verb config) "renew"));
    msimpl; [|constructor].
  destruct lo as [l|]; msimpl; [|constructor].
  destruct (notAfter_date env (cert l)); msimpl; by repeat constructor.
Qed.

(** C7. On a renewal that is not a dry run, once the guard has passed and
    the protocol client has answered, the executor calls [save_successor]
    with the lineage's latest common version and the new certificate, key
    and chain, and next calls [update_all_links_to] with the version
    number [save_successor] returned; these are its only persistence
    calls, and a run that completes returns the lineage so updated. *)
Theorem C7_renew_saves_then_links env config domains lineage t0 l new :
  dry_run config = false ->
  resolve_action env config domains lineage = (t0, Ok (renew_action, Some l)) ->
  outcome (_avoid_invalidating_lineage env config l (renewalparams_server l))
    = Ok tt ->
  obtain_certificate env domains = Ok new ->
  let saved := save_successor (get_sans_from_cert env) l
                 (latest_common_version l) (new_certr_pem new)
                 (new_key_pem new) (new_chain_pem new) in
  exists t_report,
    trace (_auth_from_domains env config domains lineage) =
      t0 ++ [EvObtainCertificate domains;
             EvSaveSuccessor (latest_common_version l) (new_certr_pem new)
                             (new_key_pem new) (new_chain_pem new);
             EvUpdateAllLinksTo saved.2] ++ t_report /\
    Forall (fun ev => is_persistence_call ev = false) (t0 ++ t_report) /\
    forall r, outcome (_auth_from_domains env config domains lineage) = Ok r ->
              r = (Some (update_all_links_to saved.1 saved.2), renew_action).
Proof.
  intros Hwet Hres Hguard Hnew saved.
  rewrite (auth_from_domains_renew _ _ _ _ _ _ Hres).
  rewrite (renew_lineage_saves _ _ _ _ _ Hwet Hguard Hnew). fold saved. msimpl.
  pose proof (report_and_return_trace env config
                (Some (update_all_links_to saved.1 saved.2)) renew_action) as Hrep.
  assert (Hout : forall r,
             outcome (report_and_return env config
                        (Some (update_all_links_to saved.1 saved.2))
                        renew_action) = Ok r ->
             r = (Some (update_all_links_to saved.1 saved.2), renew_action)).
  { unfold report_and_return, _report_new_cert.
    destruct (negb (dry_run config) && negb (String.eqb (verb config) "renew"));
      msimpl; [|by intros r [= <-]].
    destruct (notAfter_date env _); msimpl; [by intros r [= <-] | done]. }
  destruct (report_and_return env config _ renew_action) as [t_report r].
  msimpl. exists t_report. split_and!; [done| |exact Hout].
  apply Forall_app. split; [|done].
  apply Forall_quiet_persist.
  pose proof (resolve_action_events env config domains lineage) as Hev.
  by rewrite Hres in Hev.
Qed.

Lemma C7_renew_saves_then_links_witness :
  exists t_report,
    trace (_auth_from_domains Sample.env_none Sample.certonly ["a.com"]
             (Some Sample.a)) =
      [] ++ [EvObtainCertificate ["a.com"];
             EvSaveSuccessor 1 "CERT" "KEY" "CHAIN";
             EvUpdateAllLinksTo 2] ++ t_report.
Proof.
  destruct (C7_renew_saves_then_links Sample.env_none Sample.certonly ["a.com"]
              (Some Sample.a) [] Sample.a Sample.obtained
              eq_refl eq_refl eq_refl eq_refl) as (t_report & Htr & _ & _).
  exists t_report. exact Htr.
Defined.

(** The message of the report is the text of the source with the path
    and the expiry date in their places: the full chain path when it is
    not empty, the certificate path otherwise. *)
Lemma new_cert_msg_text cert_path fullchain_path expiry :
  (fullchain_path <> "" ->
   new_cert_msg cert_path fullchain_path expiry =
     "Congratulations! Your certificate and chain have been saved at " +:+
     fullchain_path +:+ ". Your cert will expire on " +:+ expiry +:+
     ". To obtain a new version of the certificate in the future, " +:+
     "simply run Let's Encrypt again.") /\
  (fullchain_path = "" ->
   new_cert_msg cert_path fullchain_path expiry =
     "Congratulations! Your certificate has  been saved at " +:+
     cert_path +:+ ". Your cert will expire on " +:+ expiry +:+
     ". To obtain a new version of the certificate in the future, " +:+
     "simply run Let's Encrypt again.").
Proof.
  unfold new_cert_msg, report_path.
  destruct fullchain_path as [|c s]; split; intros H; try done; reflexivity.
Qed.

Lemma no_new_cert_report t :
  Forall (fun ev => is_new_cert_report ev = false) t ->
  forall msg, EvAddMessage msg MEDIUM_PRIORITY ∉ t.
Proof.
  intros H msg Hin. rewrite Forall_forall in H. by specialize (H _ Hin).
Qed.

(** C8, as the code has it. A completed run that is not a dry run, whose
    action is renew or newcert and whose verb is not "renew", ends with
    one report to the reporter, its only medium-priority message: the
    congratulation that the certificate and chain have been saved at the
    full chain path of the lineage returned, or, when that lineage has
    no full chain path, that the certificate has been saved at its
    certificate path, followed by the expiry date of the certificate at
    the certificate path. A completed run that reinstalls, is a dry run
    or has the verb "renew" files no medium-priority message. *)
Theorem C8_new_cert_report env config domains lineage t result act :
  _auth_from_domains env config domains lineage = (t, Ok (result, act)) ->
  (act ≠ reinstall_action -> dry_run config = false -> verb config ≠ "renew" ->
   exists l t' expiry msg,
     result = Some l /\
     notAfter_date env (cert l) = Ok expiry /\
     t = t' ++ [EvAddMessage msg MEDIUM_PRIORITY] /\
     (forall other, EvAddMessage other MEDIUM_PRIORITY ∉ t') /\
     (fullchain l <> "" ->
      msg =
        "Congratulations! Your certificate and chain have been saved at " +:+
        fullchain l +:+ ". Your cert will expire on " +:+ expiry +:+
        ". To obtain a new version of the certificate in the future, " +:+
        "simply run Let's Encrypt again.") /\
     (fullchain l = "" ->
      msg =
        "Congratulations! Your certificate has  been saved at " +:+
        cert l +:+ ". Your cert will expire on " +:+ expiry +:+
        ". To obtain a new version of the certificate in the future, " +:+
        "simply run Let's Encrypt again."))
  /\ (act = reinstall_action \/ dry_run config = true \/ verb config = "renew" ->
      forall msg, EvAddMessage msg MEDIUM_PRIORITY ∉ t).
Proof.
  unfold _auth_from_domains. intros Hrun.
  pose proof (resolve_action_events env config domains lineage) as Hev.
  apply Forall_quiet_report in Hev.
  destruct (resolve_action env config domains lineage) as [t0 [[a lo]|e]];
    msimpl; [|done]. simpl in Hev.
  set (reports := negb (dry_run config) && negb (String.eqb (verb config) "renew")).
  assert (Hrep : forall lo' tr r,
    report_and_return env config lo' a = (tr, Ok r) ->
    r = (lo', a) /\
    if reports
    then exists l expiry,
           lo' = Some l /\ notAfter_date env (cert l) = Ok expiry /\
           tr = [EvAddMessage (new_cert_msg (cert l) (fullchain l) expiry)
                              MEDIUM_PRIORITY]
    else tr = []).
  { intros lo' tr r. unfold report_and_return, _report_new_cert. fold reports.
    destruct reports; msimpl.
    - destruct lo' as [l|]; msimpl; [|done].
      destruct (notAfter_date env (cert l)) as [expiry|] eqn:Hexp; msimpl;
        [|done].
      intros [= <- <-]. split; [done|]. by exists l, expiry.
    - by intros [= <- <-]. }
  assert (Hreports : dry_run config = false -> verb config ≠ "renew" ->
                     reports = true).
  { intros Hd Hv. unfold reports. rewrite Hd. simpl.
    apply negb_true_iff. by apply String.eqb_neq. }
  assert (Hsilent : dry_run config = true \/ verb config = "renew" ->
                    reports = false).
  { intros [Hd|Hv]; unfold reports; [by rewrite Hd|].
    rewrite Hv. simpl. apply andb_false_r. }
  assert (Hend : forall t1 lo' tr,
    Forall (fun ev => is_new_cert_report ev = false) t1 ->
    report_and_return env config lo' a = (tr, Ok (result, act)) ->
    t = t1 ++ tr -> a ≠ reinstall_action ->
    (act ≠ reinstall_action -> dry_run config = false -> verb config ≠ "renew" ->
     exists l t' expiry msg,
       result = Some l /\
       notAfter_date env (cert l) = Ok expiry /\
       t = t' ++ [EvAddMessage msg MEDIUM_PRIORITY] /\
       (forall other, EvAddMessage other MEDIUM_PRIORITY ∉ t') /\
       (fullchain l <> "" ->
        msg =
          "Congratulations! Your certificate and chain have been saved at " +:+
          fullchain l +:+ ". Your cert will expire on " +:+ expiry +:+
          ". To obtain a new version of the certificate in the future, " +:+
          "simply run Let's Encrypt again.") /\
       (fullchain l = "" ->
        msg =
          "Congratulations! Your certificate has  been saved at " +:+
          cert l +:+ ". Your cert will expire on " +:+ expiry +:+
          ". To obtain a new version of the certificate in the future, " +:+
          "simply run Let's Encrypt again."))
    /\ (act = reinstall_action \/ dry_run config = true \/ verb config = "renew" ->
        forall msg, EvAddMessage msg MEDIUM_PRIORITY ∉ t)).
  { intros t1 lo' tr Hquiet Hr -> Ha.
    destruct (Hrep lo' tr _ Hr) as [[= -> ->] Htr].
    split.
    - intros _ Hd Hv. rewrite (Hreports Hd Hv) in Htr.
      destruct Htr as (l & expiry & [= ->] & Hexp & ->).
      destruct (new_cert_msg_text (cert l) (fullchain l) expiry) as [Hfull Hcert].
      exists l, t1, expiry, (new_cert_msg (cert l) (fullchain l) expiry).
      split_and!;
        [done | done | done | by apply no_new_cert_report
        | exact Hfull | exact Hcert].
    - intros [?|Hs]; [done|]. rewrite (Hsilent Hs) in Htr. subst tr.
      rewrite app_nil_r. by apply no_new_cert_report. }
  destruct a.
  - (* reinstall *)
    injection Hrun as <- <- <-. rewrite app_nil_r. split; [done|].
    intros _. by apply no_new_cert_report.
  - (* renew *)
    destruct lo as [l|]; [|done]. msimpl.
    assert (Hquiet : Forall (fun ev => is_new_cert_report ev = false)
                            (trace (renew_lineage env config domains l))).
    { unfold renew_lineage.
      pose proof (guard_trace env config l (renewalparams_server l)) as Htr.
      destruct (_avoid_invalidating_lineage _ _ _ _) as [tg [[]|eg]];
        simpl in Htr; subst tg; msimpl; [|constructor].
      destruct (obtain_certificate env domains); msimpl; [|by repeat constructor].
      destruct (dry_run config); msimpl; by repeat constructor. }
    destruct (renew_lineage env config domains l) as [t1 [l'|e1]]; msimpl; [|done].
    simpl in Hquiet.
    destruct (report_and_return env config (Some l') renew_action)
      as [tr [r|er]] eqn:Hr; msimpl; [|done].
    injection Hrun as <- ->.
    apply (Hend (t0 ++ t1) (Some l') tr); try done.
    + by apply Forall_app.
    + by rewrite app_assoc.
  - (* newcert *)
    assert (Hq : Forall (fun ev => is_new_cert_report ev = false)
                        (t0 ++ [EvObtainAndEnroll domains])).
    { apply Forall_app. split; [done|]. by repeat constructor. }
    destruct (obtain_and_enroll_certificate env domains) as [[l'| |]|e1];
      msimpl; [|done| |done].
    + destruct (report_and_return env config (Some l') newcert_action)
        as [tr [r|er]] eqn:Hr; msimpl; [|done].
      injection Hrun as <- ->.
      apply (Hend (t0 ++ [EvObtainAndEnroll domains]) (Some l') tr); try done.
      by rewrite <- app_assoc.
    + destruct (report_and_return env config None newcert_action)
        as [tr [r|er]] eqn:Hr; msimpl; [|done].
      injection Hrun as <- ->.
      apply (Hend (t0 ++ [EvObtainAndEnroll domains]) None tr); try done.
      by rewrite <- app_assoc.
Qed.

Lemma C8_new_cert_report_witness :
  exists t',
    trace (_auth_from_domains Sample.env_none Sample.certonly ["a.com"]
             (Some Sample.a)) =
      t' ++ [EvAddMessage
               ("Congratulations! Your certificate and chain have been " +:+
                "saved at /etc/letsencrypt/live/a/fullchain.pem. Your cert " +:+
                "will expire on 2016-05-01. To obtain a new version of the " +:+
                "certificate in the future, simply run Let's Encrypt again.")
               MEDIUM_PRIORITY].
Proof.
  edestruct (C8_new_cert_report Sample.env_none Sample.certonly ["a.com"]
               (Some Sample.a)) as [H _].
  { reflexivity. }
  destruct H as (l & t' & expiry & msg & Hl & Hexp & Ht & _ & Hmsg & _).
  - discriminate.
  - reflexivity.
  - discriminate.
  - injection Hl as <-. injection Hexp as <-.
    assert (Hfull : fullchain Sample.a <> "") by discriminate.
    specialize (Hmsg Hfull). subst msg. exists t'. exact Ht.
Defined.

(** C8, as stated, fails: under the verb "renew" a renewal that is not a
    dry run completes, having saved and linked the successor, and files
    no report. *)
Lemma C8_counterexample :
  dry_run Sample.renew_verb = false /\
  _auth_from_domains Sample.env_none Sample.renew_verb ["a.com"] (Some Sample.a)
  = ([EvObtainCertificate ["a.com"];
      EvSaveSuccessor 1 "CERT" "KEY" "CHAIN";
      EvUpdateAllLinksTo 2],
     Ok (Some (update_all_links_to
                 (save_successor (get_sans_from_cert Sample.env_none)
                                 Sample.a 1 "CERT" "KEY" "CHAIN").1 2),
         renew_action)).
Proof. split; reflexivity. Qed.

(** ** The account resolver *)

Lemma register_account_raises env config t e :
  register env config (_tos_cb env config) = (t, Raise e) ->
  register_account env config = (EvRegister :: t, Raise (reraised e)).
Proof.
  intros Hreg. unfold register_account, reraised. msimpl. rewrite Hreg. msimpl.
  destruct (is_MissingCommandlineFlag e), (is_errors_Error e); msimpl;
    by rewrite app_nil_r.
Qed.

(** C9, as the code has it. With no account named and none stored, once
    the e-mail step has produced the configuration handed to the
    registration, an exception raised by the registration always ends
    the account resolution with an exception, after the listing of the
    accounts, the e-mail step and the registration call: a
    missing-command-line-flag error goes out as it is, every other error
    of the client's [errors.Error] hierarchy is replaced by the error
    "Unable to register an account with ACME server", and an exception
    outside that hierarchy (one of the protocol library, say) goes out
    as it is, not wrapped. *)
Theorem C9_registration_errors env config config' t e :
  account config = None ->
  account_find_all env = [] ->
  outcome (prompt_email env config) = Ok config' ->
  register env config' (_tos_cb env config') = (t, Raise e) ->
  trace (_determine_account env config) =
    EvAccountFindAll :: trace (prompt_email env config) ++ EvRegister :: t
  /\ (exists e', outcome (_determine_account env config) = Raise e')
  /\ (exn_cls e = MissingCommandlineFlag ->
      outcome (_determine_account env config) = Raise e)
  /\ (exn_cls e = Error \/ exn_cls e = CertStorageError \/
      (exists name, exn_cls e = OtherError name) ->
      outcome (_determine_account env config) =
        Raise (Exn Error "Unable to register an account with ACME server"))
  /\ (is_errors_Error e = false ->
      outcome (_determine_account env config) = Raise e).
Proof.
  intros Hacc Hnone Hmail Hreg.
  assert (Hrun : _determine_account env config =
                 (EvAccountFindAll :: trace (prompt_email env config) ++
                  EvRegister :: t, Raise (reraised e))).
  { unfold _determine_account. rewrite Hacc, Hnone. simpl.
    destruct (prompt_email env config) as [tp [c|ep]]; simpl in Hmail;
      [|done]. injection Hmail as ->. msimpl.
    by rewrite (register_account_raises env config' t e Hreg). }
  rewrite Hrun. unfold reraised, outcome, trace, is_MissingCommandlineFlag,
    is_errors_Error. simpl. split_and!.
  - done.
  - by eexists.
  - by intros ->.
  - by intros [->|[->|[name ->]]].
  - by destruct (exn_cls e).
Qed.

Lemma C9_registration_errors_witness :
  outcome (_determine_account Sample.env_none Sample.certonly)
  = Raise (Exn Error "Unable to register an account with ACME server").
Proof.
  destruct (C9_registration_errors Sample.env_none Sample.certonly
              Sample.certonly [] Sample.boom eq_refl eq_refl eq_refl eq_refl)
    as (_ & _ & _ & H & _).
  apply H. right. right. by exists "ConfigurationError".
Defined.

(** C9, as stated, fails: a registration that raises an exception
    outside the [errors.Error] hierarchy, here an error of the protocol
    library, is not a missing-flag failure and yet is not wrapped: it
    ends the account resolution as it is. *)
Lemma C9_counterexample :
  ~ (forall env config config' t e,
       account config = None ->
       account_find_all env = [] ->
       outcome (prompt_email env config) = Ok config' ->
       register env config' (_tos_cb env config') = (t, Raise e) ->
       is_MissingCommandlineFlag e = false ->
       outcome (_determine_account env config) =
         Raise (Exn Error "Unable to register an account with ACME server")).
Proof.
  intros H.
  specialize (H (Sample.env [] Cases.protocol_error) Sample.certonly
                Sample.certonly [] Cases.protocol_error
                eq_refl eq_refl eq_refl eq_refl eq_refl).
  discriminate H.
Qed.

(** ** The identical-match prompt *)

(** C10. When renewal is not due and the reinstall flag is unset, the
    handler reaches its prompt. Under a verb other than "run" and
    "certonly" no branch binds [keep_opt], and the handler ends with an
    unbound-local error without showing a menu; under "run" or
    "certonly" the menu is shown with the keep option as its first
    choice. *)
Theorem C10_keep_opt_unbound env config cert :
  should_renew env config cert = false ->
  reinstall config = false ->
  (verb config ≠ "run" -> verb config ≠ "certonly" ->
   _handle_identical_cert_request env config cert =
     ([], Raise (Exn UnboundLocalError
                   "local variable 'keep_opt' referenced before assignment")))
  /\ (verb config = "run" \/ verb config = "certonly" ->
      exists keep,
        keep_opt config = Some keep /\
        trace (_handle_identical_cert_request env config cert) =
          [EvMenu (identical_question cert)
                  [keep; "Renew & replace the cert (limit ~5 per 7 days)"]]).
Proof.
  intros Hrenew Hre. unfold _handle_identical_cert_request.
  rewrite Hrenew, Hre. split.
  - intros Hrun Hcertonly. unfold keep_opt.
    apply String.eqb_neq in Hrun, Hcertonly. by rewrite Hrun, Hcertonly.
  - intros Hverb.
    assert (exists keep, keep_opt config = Some keep) as [keep Hkeep].
    { unfold keep_opt. destruct Hverb as [-> | ->]; simpl; eauto. }
    exists keep. rewrite Hkeep. split; [done|]. msimpl.
    destruct (menu_answer env _ _) as [code choice]. simpl.
    destruct (String.eqb code (CANCEL env)); [done|].
    by destruct (choice =? 0)%Z, (choice =? 1)%Z.
Qed.

Lemma C10_keep_opt_unbound_witness :
  _handle_identical_cert_request Sample.env_none Sample.install_verb Sample.a =
  ([], Raise (Exn UnboundLocalError
                "local variable 'keep_opt' referenced before assignment")).
Proof.
  destruct (C10_keep_opt_unbound Sample.env_none Sample.install_verb Sample.a
              eq_refl eq_refl) as [H _].
  apply H; discriminate.
Defined.

(** * Further properties of the engine *)

(** ** The matcher on arbitrary enumerations *)

Lemma find_loop_inv domains files found t r :
  find_loop domains files found = (t, Ok r) ->
  loads_or_broken files /\ t = broken_log files /\
  r = scan domains (readable files) found.
Proof.
  revert found t. induction files as [|[f [c|e]] files IH]; intros found t; simpl.
  - intros [= <- <-]. split; [constructor | done].
  - intros Hrun. destruct (IH _ _ Hrun) as (Hok & -> & ->).
    split; [by constructor | done].
  - destruct (is_CertStorageError_or_IOError e) eqn:Htol; [|done].
    destruct (find_loop domains files found) as [t' [r'|e']] eqn:Hrest;
      msimpl; [|done].
    intros [= <- <-]. destruct (IH _ _ Hrest) as (Hok & -> & ->).
    split; [by constructor | done].
Qed.

Lemma find_duplicative_certs_inv env config domains t r :
  _find_duplicative_certs env config domains = (t, Ok r) ->
  make_or_verify_dir env = Ok tt /\
  loads_or_broken (renewal_conf_files env) /\
  t = broken_log (renewal_conf_files env) /\
  r = scan domains (readable (renewal_conf_files env)) (None, None).
Proof.
  unfold _find_duplicative_certs.
  destruct (make_or_verify_dir env) as [[]|e]; msimpl; [|done].
  destruct (find_loop domains (renewal_conf_files env) (None, None))
    as [t' r'] eqn:Hloop. msimpl.
  intros [= <- ->]. by destruct (find_loop_inv _ _ _ _ _ Hloop) as (? & ? & ?).
Qed.

Lemma matcher_results_sound env config domains t identical subset :
  _find_duplicative_certs env config domains = (t, Ok (identical, subset)) ->
  (forall l, identical = Some l ->
             l ∈ readable (renewal_conf_files env) /\
             name_set l = list_to_set domains) /\
  (forall l, subset = Some l ->
             l ∈ readable (renewal_conf_files env) /\
             name_set l ⊂ list_to_set domains).
Proof.
  intros Hrun. apply find_duplicative_certs_inv in Hrun as (_ & _ & _ & Hscan).
  destruct (scan_sound domains (readable (renewal_conf_files env))) as [H1 H2].
  rewrite <- Hscan in H1, H2. simpl in H1, H2. split.
  - intros l ->. by apply H1.
  - intros l ->. destruct (H2 l eq_refl) as (Hin & Hsub & Hne).
    split; [done|]. by apply strict_spec_alt.
Qed.

(** X1. Whatever the matcher returns is a lineage of the enumeration that
    loaded; the identical result has exactly the requested names, and
    the subset result has names properly contained in the request. *)
Theorem X1_matcher_results_sound env config domains t identical subset :
  _find_duplicative_certs env config domains = (t, Ok (identical, subset)) ->
  (forall l, identical = Some l ->
             l ∈ readable (renewal_conf_files env) /\
             name_set l = list_to_set domains) /\
  (forall l, subset = Some l ->
             l ∈ readable (renewal_conf_files env) /\
             name_set l ⊂ list_to_set domains).
Proof.
  intros Hrun. apply find_duplicative_certs_inv in Hrun as (_ & _ & _ & Hscan).
  destruct (scan_sound domains (readable (renewal_conf_files env))) as [H1 H2].
  rewrite <- Hscan in H1, H2. simpl in H1, H2. split.
  - intros l ->. by apply H1.
  - intros l ->. destruct (H2 l eq_refl) as (Hin & Hsub & Hne).
    split; [done|]. by apply strict_spec_alt.
Qed.

Lemma X1_matcher_results_sound_witness :
  name_set Sample.a ⊂ list_to_set ["a.com"; "b.com"].
Proof.
  destruct (X1_matcher_results_sound Sample.env_abc_a Sample.certonly
              ["a.com"; "b.com"] [] None (Some Sample.a) eq_refl) as [_ H].
  by destruct (H Sample.a eq_refl).
Defined.

Lemma broken_readable_count files :
  length (broken_log files) + length (readable files) = length files.
Proof.
  induction files as [|[f [c|e]] files IH]; [done| |].
  - change (length (broken_log files) + S (length (readable files))
            = S (length files)). lia.
  - change (S (length (broken_log files)) + length (readable files)
            = S (length files)). lia.
Qed.

(** X2. Renewal files that fail to load with [CertStorageError] or
    [IOError] have no influence on the match: two enumerations whose
    loaded lineages agree give the same result, and the calls made are
    one warning per broken file, in order. *)
Theorem X2_broken_files_do_not_matter env1 env2 config domains :
  make_or_verify_dir env1 = Ok tt ->
  make_or_verify_dir env2 = Ok tt ->
  loads_or_broken (renewal_conf_files env1) ->
  loads_or_broken (renewal_conf_files env2) ->
  readable (renewal_conf_files env1) = readable (renewal_conf_files env2) ->
  outcome (_find_duplicative_certs env1 config domains) =
    outcome (_find_duplicative_certs env2 config domains) /\
  trace (_find_duplicative_certs env1 config domains) =
    broken_log (renewal_conf_files env1) /\
  length (broken_log (renewal_conf_files env1)) +
    length (readable (renewal_conf_files env1)) =
    length (renewal_conf_files env1).
Proof.
  intros Hd1 Hd2 Hok1 Hok2 Hsame.
  rewrite (find_duplicative_certs_scan env1 config domains Hd1 Hok1).
  rewrite (find_duplicative_certs_scan env2 config domains Hd2 Hok2).
  simpl. split_and!; [by rewrite Hsame | done | apply broken_readable_count].
Qed.

Lemma X2_broken_files_do_not_matter_witness :
  outcome (_find_duplicative_certs Cases.env_broken_a Sample.certonly
             ["a.com"; "b.com"]) =
  outcome (_find_duplicative_certs Cases.env_a Sample.certonly
             ["a.com"; "b.com"]).
Proof.
  destruct (X2_broken_files_do_not_matter Cases.env_broken_a Cases.env_a
              Sample.certonly ["a.com"; "b.com"]) as [H _].
  - reflexivity.
  - reflexivity.
  - repeat constructor.
  - repeat constructor.
  - reflexivity.
  - exact H.
Defined.

(** X3. A renewal file whose loading fails in any other way ends the
    match with that exception: after the warnings for the broken files
    before it, the matcher, the resolver (unless duplication is allowed)
    and the executor without a given lineage all raise it, and no call
    reaches the protocol client or the lineage store. *)
Theorem X3_foreign_load_failure_aborts env config domains pre f e post :
  make_or_verify_dir env = Ok tt ->
  renewal_conf_files env = pre ++ (f, Raise e) :: post ->
  loads_or_broken pre ->
  is_CertStorageError_or_IOError e = false ->
  _find_duplicative_certs env config domains = (broken_log pre, Raise e) /\
  (duplicate config = false ->
   _treat_as_renewal env config domains = (broken_log pre, Raise e) /\
   _auth_from_domains env config domains None = (broken_log pre, Raise e)).
Proof.
  intros Hdir Hfiles Hpre Hfor.
  assert (Hloop : forall found,
            find_loop domains (pre ++ (f, Raise e) :: post) found =
            (broken_log pre, Raise e)).
  { clear Hfiles. induction pre as [|[g [c|e']] pre IH]; intros found; simpl.
    - by rewrite Hfor.
    - apply Forall_cons in Hpre as [_ Hpre]. by apply IH.
    - apply Forall_cons in Hpre as [Htol Hpre]. simpl in Htol. rewrite Htol.
      msimpl. by rewrite (IH Hpre). }
  assert (Hfind : _find_duplicative_certs env config domains =
                  (broken_log pre, Raise e)).
  { unfold _find_duplicative_certs. rewrite Hdir, Hfiles. msimpl.
    by rewrite Hloop. }
  split; [done|]. intros Hdup.
  assert (Htreat : _treat_as_renewal env config domains =
                   (broken_log pre, Raise e)).
  { unfold _treat_as_renewal. by rewrite Hdup, Hfind. }
  split; [done|].
  unfold _auth_from_domains, resolve_action. by rewrite Htreat.
Qed.

Lemma X3_foreign_load_failure_aborts_witness :
  _auth_from_domains Cases.env_broken_garbled_a Sample.certonly ["a.com"] None =
  ([EvLog "warning" ("Renewal conf file /etc/letsencrypt/renewal/old.conf" +:+
                     " is broken. Skipping.")],
   Raise (Exn (Foreign "ValueError") "bad")).
Proof.
  destruct (X3_foreign_load_failure_aborts Cases.env_broken_garbled_a
              Sample.certonly ["a.com"] [Cases.broken]
              "/etc/letsencrypt/renewal/bad.conf"
              (Exn (Foreign "ValueError") "bad") [("a", Ok Sample.a)])
    as [_ H].
  - reflexivity.
  - reflexivity.
  - repeat constructor.
  - reflexivity.
  - destruct (H eq_refl) as [_ H']. exact H'.
Defined.

(** ** The resolver's answers *)

Lemma handle_identical_inv env config c t act lo :
  _handle_identical_cert_request env config c = (t, Ok (act, lo)) ->
  lo = Some c /\ act ≠ newcert_action /\
  (act = reinstall_action -> should_renew env config c = false).
Proof.
  unfold _handle_identical_cert_request.
  destruct (should_renew env config c); [by intros [= <- <- <-]|].
  destruct (reinstall config); [by intros [= <- <- <-]|].
  destruct (keep_opt config) as [keep|]; [|done]. msimpl.
  destruct (menu_answer env _ _) as [code choice]. simpl.
  destruct (String.eqb code (CANCEL env)); [done|].
  destruct (choice =? 0)%Z; [by intros [= <- <- <-]|].
  destruct (choice =? 1)%Z; [by intros [= <- <- <-]|done].
Qed.

Lemma handle_subset_inv env config domains c t act lo :
  _handle_subset_cert_request env config domains c = (t, Ok (act, lo)) ->
  lo = Some c /\ act = renew_action.
Proof.
  unfold _handle_subset_cert_request.
  destruct (expand config), (renew_by_default config),
    (yesno_answer env (subset_question domains c)); msimpl;
    try done; by intros [= <- <- <-].
Qed.

Lemma treat_as_renewal_inv env config domains t act lo :
  _treat_as_renewal env config domains = (t, Ok (act, lo)) ->
  (duplicate config = true /\ act = newcert_action /\ lo = None /\ t = []) \/
  (duplicate config = false /\
   exists t1 t2 found,
     t = t1 ++ t2 /\
     _find_duplicative_certs env config domains = (t1, Ok found) /\
     match found with
     | (Some c, _) =>
         _handle_identical_cert_request env config c = (t2, Ok (act, lo))
     | (None, Some c) =>
         _handle_subset_cert_request env config domains c = (t2, Ok (act, lo))
     | (None, None) => act = newcert_action /\ lo = None /\ t2 = []
     end).
Proof.
  unfold _treat_as_renewal. destruct (duplicate config).
  { intros [= <- <- <-]. by left. }
  intros Hrun. right. split; [done|].
  destruct (_find_duplicative_certs env config domains) as [t1 [found|e]];
    msimpl; [|done].
  destruct found as [[c|] [c'|]].
  - destruct (_handle_identical_cert_request env config c) as [t2 r] eqn:Hh.
    injection Hrun as <- ->. by exists t1, t2, (Some c, Some c').
  - destruct (_handle_identical_cert_request env config c) as [t2 r] eqn:Hh.
    injection Hrun as <- ->. by exists t1, t2, (Some c, None).
  - destruct (_handle_subset_cert_request env config domains c')
      as [t2 r] eqn:Hh.
    injection Hrun as <- ->. by exists t1, t2, (None, Some c').
  - injection Hrun as <- <- <-. by exists t1, [], (None, None).
Qed.

Lemma report_and_return_inv env config lo act t r :
  report_and_return env config lo act = (t, Ok r) -> r = (lo, act).
Proof.
  unfold report_and_return, _report_new_cert.
  destruct (negb (dry_run config) && negb (String.eqb (verb config) "renew"));
    msimpl; [|by intros [= <- <-]].
  destruct lo as [l|]; msimpl; [|done].
  destruct (notAfter_date env (cert l)); msimpl; [|done]. by intros [= <- <-].
Qed.

(** X4. The resolver answers with a lineage exactly when its action is not
    newcert. A run of the executor that completes returns no lineage in
    one case only: its action is newcert and the enrolment answered
    [None]; such a run is a dry run or has the verb "renew", since the
    report would otherwise fail on the missing lineage. *)
Theorem X4_action_comes_with_lineage env config domains :
  (forall t act lo,
      _treat_as_renewal env config domains = (t, Ok (act, lo)) ->
      (act = newcert_action <-> lo = None)) /\
  (forall lineage t act lo,
      _auth_from_domains env config domains lineage = (t, Ok (lo, act)) ->
      (lo = None <->
       act = newcert_action /\
       obtain_and_enroll_certificate env domains = Ok NoLineage) /\
      (lo = None -> dry_run config = true \/ verb config = "renew")).
Proof.
  assert (Hres : forall t act lo,
             _treat_as_renewal env config domains = (t, Ok (act, lo)) ->
             (act = newcert_action <-> lo = None)).
  { intros t act lo Hrun.
    apply treat_as_renewal_inv in Hrun
      as [(_ & -> & -> & _)|(_ & t1 & t2 & found & _ & _ & Hh)]; [done|].
    destruct found as [[c|] [c'|]].
    - apply handle_identical_inv in Hh as (-> & ? & _). done.
    - apply handle_identical_inv in Hh as (-> & ? & _). done.
    - by apply handle_subset_inv in Hh as (-> & ->).
    - by destruct Hh as (-> & -> & _). }
  split; [exact Hres|].
  intros lineage t act lo. unfold _auth_from_domains.
  destruct (resolve_action env config domains lineage)
    as [t0 [[a lo0]|e]] eqn:Hr; msimpl; [|done].
  destruct a.
  - intros [= <- <- <-]. destruct lineage as [l|]; simpl in Hr.
    + done.
    + destruct lo0 as [l|]; [by split; [split; [|intros []]|]|].
      discriminate (proj2 (Hres _ _ _ Hr) eq_refl).
  - destruct lo0 as [l|]; [|done]. msimpl.
    destruct (renew_lineage env config domains l) as [t1 [l'|e1]]; msimpl; [|done].
    destruct (report_and_return env config (Some l') renew_action)
      as [tr [r|er]] eqn:Hrr; msimpl; [|done].
    apply report_and_return_inv in Hrr as ->.
    intros [= <- <- <-]. by split; [split; [|intros []]|].
  - destruct (obtain_and_enroll_certificate env domains) as [[l'| |]|e1];
      msimpl; [|done| |done].
    + destruct (report_and_return env config (Some l') newcert_action)
        as [tr [r|er]] eqn:Hrr; msimpl; [|done].
      apply report_and_return_inv in Hrr as ->.
      intros [= <- <- <-]. by split; [split; [|intros []]|].
    + unfold report_and_return.
      destruct (dry_run config); simpl.
      { intros [= <- <- <-]. split; [done|]. by left. }
      destruct (String.eqb (verb config) "renew") eqn:Hverb; simpl; [|done].
      apply String.eqb_eq in Hverb.
      intros [= <- <- <-]. split; [done|]. by right.
Qed.

(** X5. A lineage the resolver answers with comes from the enumeration and
    is contained in the request; reinstall is resolved only for a lineage
    with exactly the requested names whose renewal is not due. *)
Theorem X5_resolved_lineage_fits_request env config domains t act l :
  _treat_as_renewal env config domains = (t, Ok (act, Some l)) ->
  l ∈ readable (renewal_conf_files env) /\
  name_set l ⊆ list_to_set domains /\
  (act = reinstall_action ->
   name_set l = list_to_set domains /\ should_renew env config l = false).
Proof.
  intros Hrun.
  apply treat_as_renewal_inv in Hrun
    as [(_ & _ & ? & _)|(_ & t1 & t2 & found & _ & Hfind & Hh)]; [done|].
  destruct found as [i s].
  destruct (matcher_results_sound env config domains t1 i s Hfind)
    as [Hi Hs].
  destruct i as [c|]; [|destruct s as [c|]].
  - apply handle_identical_inv in Hh as ([= <-] & _ & Hre).
    destruct (Hi l eq_refl) as [Hin Heq].
    split_and!; [done | by rewrite Heq | by intros ?; split; [|apply Hre]].
  - apply handle_subset_inv in Hh as ([= <-] & ->).
    destruct (Hs l eq_refl) as [Hin [Hsub _]]. done.
  - by destruct Hh as (_ & ? & _).
Qed.

Lemma X5_resolved_lineage_fits_request_witness :
  name_set Sample.a = list_to_set ["a.com"] /\
  should_renew Cases.env_a Cases.certonly_reinstall Sample.a = false.
Proof.
  destruct (X5_resolved_lineage_fits_request Cases.env_a
              Cases.certonly_reinstall ["a.com"] [] reinstall_action Sample.a
              eq_refl) as (_ & _ & H).
  exact (H eq_refl).
Defined.

(** ** The executor, branch by branch *)

Lemma guard_raises env config lineage original_server e :
  outcome (_avoid_invalidating_lineage env config lineage original_server)
    = Raise e ->
  _avoid_invalidating_lineage env config lineage original_server = ([], Raise e).
Proof.
  intros Hout. pose proof (guard_trace env config lineage original_server) as Htr.
  destruct (_avoid_invalidating_lineage _ _ _ _) as [t r]. simpl in *. by subst.
Qed.

Lemma renew_lineage_guarded env config domains l e :
  outcome (_avoid_invalidating_lineage env config l (renewalparams_server l))
    = Raise e ->
  renew_lineage env config domains l = ([], Raise e).
Proof.
  intros Hguard. unfold renew_lineage. by rewrite (guard_raises _ _ _ _ _ Hguard).
Qed.

Lemma renew_lineage_obtain_fails env config domains l e :
  outcome (_avoid_invalidating_lineage env config l (renewalparams_server l))
    = Ok tt ->
  obtain_certificate env domains = Raise e ->
  renew_lineage env config domains l = ([EvObtainCertificate domains], Raise e).
Proof.
  intros Hguard Hfail. unfold renew_lineage.
  by rewrite (guard_passes _ _ _ _ Hguard), Hfail.
Qed.

Lemma auth_from_domains_reinstall env config domains lineage t0 lo :
  resolve_action env config domains lineage = (t0, Ok (reinstall_action, lo)) ->
  _auth_from_domains env config domains lineage = (t0, Ok (lo, reinstall_action)).
Proof.
  intros Hres. unfold _auth_from_domains. rewrite Hres. msimpl.
  by rewrite app_nil_r.
Qed.

Lemma auth_from_domains_newcert env config domains lineage t0 lo :
  resolve_action env config domains lineage = (t0, Ok (newcert_action, lo)) ->
  _auth_from_domains env config domains lineage =
  match obtain_and_enroll_certificate env domains with
  | Ok (Enrolled l) =>
      after (t0 ++ [EvObtainAndEnroll domains])
            (report_and_return env config (Some l) newcert_action)
  | Ok NotEnrolled =>
      (t0 ++ [EvObtainAndEnroll domains],
       Raise (Exn Error "Certificate could not be obtained"))
  | Ok NoLineage =>
      after (t0 ++ [EvObtainAndEnroll domains])
            (report_and_return env config None newcert_action)
  | Raise e => (t0 ++ [EvObtainAndEnroll domains], Raise e)
  end.
Proof.
  intros Hres. unfold _auth_from_domains. rewrite Hres. msimpl.
  destruct (obtain_and_enroll_certificate env domains) as [[l| |]|e]; msimpl;
    try done.
  - destruct (report_and_return env config (Some l) newcert_action) as [tr r].
    unfold after. simpl. by rewrite <- app_assoc.
  - destruct (report_and_return env config None newcert_action) as [tr r].
    unfold after. simpl. by rewrite <- app_assoc.
Qed.

Lemma report_and_return_cases env config l act :
  report_and_return env config (Some l) act =
  if negb (dry_run config) && negb (String.eqb (verb config) "renew")
  then match notAfter_date env (cert l) with
       | Ok expiry =>
           ([EvAddMessage (new_cert_msg (cert l) (fullchain l) expiry)
                          MEDIUM_PRIORITY], Ok (Some l, act))
       | Raise e => ([], Raise e)
       end
  else ([], Ok (Some l, act)).
Proof.
  unfold report_and_return, _report_new_cert.
  destruct (negb (dry_run config) && negb (String.eqb (verb config) "renew"));
    msimpl; [|done].
  by destruct (notAfter_date env (cert l)).
Qed.

Lemma report_and_return_none env config act :
  report_and_return env config None act =
  if negb (dry_run config) && negb (String.eqb (verb config) "renew")
  then ([], Raise (Exn AttributeError "NoneType"))
  else ([], Ok (None, act)).
Proof.
  unfold report_and_return.
  by destruct (negb (dry_run config) && negb (String.eqb (verb config) "renew")).
Qed.

Lemma resolve_action_cases env config domains lineage :
  exists t0 r,
    resolve_action env config domains lineage = (t0, r) /\
    Forall (fun ev => is_prompt_or_log ev = true) t0.
Proof.
  pose proof (resolve_action_events env config domains lineage) as Hev.
  destruct (resolve_action env config domains lineage) as [t0 r]. by exists t0, r.
Qed.

(** X6. A guard that refuses, or a current certificate that cannot be
    read, stops a renewal before anything is asked of the protocol
    client: the run ends with the guard's exception right after the
    resolver's calls. The unreadable certificate stops it whatever the
    target server and the override flag are. *)
Theorem X6_guard_failure_precedes_authority env config domains lineage t0 l e :
  resolve_action env config domains lineage = (t0, Ok (renew_action, Some l)) ->
  (outcome (_avoid_invalidating_lineage env config l (renewalparams_server l))
     = Raise e \/
   issuer_repr env (cert l) = Raise e) ->
  _auth_from_domains env config domains lineage = (t0, Raise e) /\
  Forall (fun ev => is_authority_call ev = false) t0.
Proof.
  intros Hres Hfail.
  assert (Hguard : outcome (_avoid_invalidating_lineage env config l
                              (renewalparams_server l)) = Raise e).
  { destruct Hfail as [?|Hload]; [done|].
    unfold _avoid_invalidating_lineage. by rewrite Hload. }
  rewrite (auth_from_domains_renew _ _ _ _ _ _ Hres).
  rewrite (renew_lineage_guarded _ _ _ _ _ Hguard). msimpl.
  unfold after. simpl. rewrite app_nil_r. split; [done|].
  pose proof (resolve_action_events env config domains lineage) as Hev.
  rewrite Hres in Hev. simpl in Hev.
  eapply Forall_impl; [exact Hev|]. by intros [| | | | ? []| | | | | | | |].
Qed.

Lemma X6_guard_failure_precedes_authority_witness :
  _auth_from_domains Sample.env_none Sample.certonly_staging ["a.com"]
    (Some Sample.a)
  = ([], Raise (Exn Error (invalidating_msg Sample.a))).
Proof.
  destruct (X6_guard_failure_precedes_authority Sample.env_none
              Sample.certonly_staging ["a.com"] (Some Sample.a) [] Sample.a
              (Exn Error (invalidating_msg Sample.a)) eq_refl) as [H _].
  - left. reflexivity.
  - exact H.
Defined.

(** The calls of a run: those of the resolver, then those of the branch
    taken, then at most the report. *)
Lemma auth_trace_shape env config domains lineage :
  exists t0 t1 rep,
    trace (_auth_from_domains env config domains lineage) = t0 ++ t1 ++ rep /\
    t0 = trace (resolve_action env config domains lineage) /\
    Forall (fun ev => is_prompt_or_log ev = true) t0 /\
    (rep = [] \/ exists m, rep = [EvAddMessage m MEDIUM_PRIORITY]) /\
    (t1 = [] \/
     t1 = [EvObtainCertificate domains] \/
     (exists m, t1 = [EvObtainCertificate domains; EvLog "info" m] /\
                dry_run config = true) \/
     (exists l new,
        t1 = [EvObtainCertificate domains;
              EvSaveSuccessor (latest_common_version l) (new_certr_pem new)
                              (new_key_pem new) (new_chain_pem new);
              EvUpdateAllLinksTo
                (save_successor (get_sans_from_cert env) l
                   (latest_common_version l) (new_certr_pem new)
                   (new_key_pem new) (new_chain_pem new)).2] /\
        dry_run config = false /\
        obtain_certificate env domains = Ok new) \/
     t1 = [EvObtainAndEnroll domains]).
Proof.
  destruct (resolve_action_cases env config domains lineage)
    as (t0 & r & Hres & Hquiet).
  assert (Ht0 : t0 = trace (resolve_action env config domains lineage))
    by (by rewrite Hres).
  assert (Hrep : forall lo act,
            let rr := report_and_return env config lo act in
            trace rr = [] \/ exists m, trace rr = [EvAddMessage m MEDIUM_PRIORITY]).
  { intros [l|] act.
    - rewrite report_and_return_cases.
      destruct (negb (dry_run config) && negb (String.eqb (verb config) "renew"));
        [|by left].
      destruct (notAfter_date env (cert l)); simpl; eauto.
    - rewrite report_and_return_none.
      by destruct (negb (dry_run config) &&
                   negb (String.eqb (verb config) "renew")); left. }
  destruct r as [[[| |] lo]|e].
  - (* reinstall *)
    rewrite (auth_from_domains_reinstall _ _ _ _ _ _ Hres).
    exists t0, [], []. rewrite !app_nil_r. eauto 10.
  - (* renew *)
    destruct lo as [l|].
    2:{ unfold _auth_from_domains. rewrite Hres. msimpl.
        exists t0, [], []. rewrite !app_nil_r. eauto 10. }
    rewrite (auth_from_domains_renew _ _ _ _ _ _ Hres).
    destruct (outcome (_avoid_invalidating_lineage env config l
                         (renewalparams_server l))) as [[]|eg] eqn:Hguard.
    2:{ rewrite (renew_lineage_guarded _ _ _ _ _ Hguard). msimpl.
        exists t0, [], []. unfold after. simpl. eauto 10. }
    destruct (obtain_certificate env domains) as [new|eo] eqn:Hnew.
    2:{ rewrite (renew_lineage_obtain_fails _ _ _ _ _ Hguard Hnew). msimpl.
        exists t0, [EvObtainCertificate domains], []. unfold after. simpl.
        eauto 10. }
    destruct (dry_run config) eqn:Hdry.
    + rewrite (renew_lineage_dry _ _ _ _ Hdry Hguard), Hnew. msimpl.
      rewrite report_and_return_dry by done. msimpl. unfold after. simpl.
      exists t0, [EvObtainCertificate domains;
                  EvLog "info" ("Dry run: skipping updating lineage at " +:+
                                dirname env (cert l))], [].
      split; [done|]. split; [done|].
      split; [done|]. split; [by left|]. right. right. left. eauto.
    + rewrite (renew_lineage_saves _ _ _ _ _ Hdry Hguard Hnew). msimpl.
      set (saved := save_successor _ l _ _ _ _).
      specialize (Hrep (Some (update_all_links_to saved.1 saved.2))
                       renew_action).
      destruct (report_and_return env config _ renew_action) as [tr rr].
      unfold after. simpl in *.
      exists t0,
        [EvObtainCertificate domains;
         EvSaveSuccessor (latest_common_version l) (new_certr_pem new)
                         (new_key_pem new) (new_chain_pem new);
         EvUpdateAllLinksTo saved.2], tr.
      split; [done|]. split; [done|]. split; [done|]. split; [done|].
      right. right. right. left. by exists l, new.
  - (* newcert *)
    rewrite (auth_from_domains_newcert _ _ _ _ _ _ Hres).
    destruct (obtain_and_enroll_certificate env domains) as [[l| |]|e].
    + specialize (Hrep (Some l) newcert_action).
      destruct (report_and_return env config (Some l) newcert_action) as [tr rr].
      unfold after. simpl in *. rewrite <- app_assoc.
      exists t0, [EvObtainAndEnroll domains], tr. eauto 10.
    + exists t0, [EvObtainAndEnroll domains], []. simpl. eauto 10.
    + specialize (Hrep None newcert_action).
      destruct (report_and_return env config None newcert_action) as [tr rr].
      unfold after. simpl in *. rewrite <- app_assoc.
      exists t0, [EvObtainAndEnroll domains], tr. eauto 10.
    + exists t0, [EvObtainAndEnroll domains], []. simpl. eauto 10.
  - (* the resolver raised *)
    unfold _auth_from_domains. rewrite Hres. msimpl.
    exists t0, [], []. rewrite !app_nil_r. eauto 10.
Qed.

Lemma filter_quiet {A} (P : A -> Prop) `{!forall x, Decision (P x)} (l : list A) :
  Forall (fun x => ¬ P x) l -> filter P l = [].
Proof.
  induction 1 as [|x l Hx _ IH]; [done|]. by rewrite filter_cons_False.
Qed.

(** X7. In every run of the executor the calls on the lineage store are
    either none, or one [save_successor] on the latest common version
    followed directly by one [update_all_links_to] on the version it
    returned; the pair occurs only outside a dry run and only after the
    protocol client has answered. *)
Theorem X7_persistence_calls_come_paired env config domains lineage :
  let calls := filter (fun ev => is_persistence_call ev = true)
                      (trace (_auth_from_domains env config domains lineage)) in
  calls = [] \/
  exists l new,
    calls = [EvSaveSuccessor (latest_common_version l) (new_certr_pem new)
                             (new_key_pem new) (new_chain_pem new);
             EvUpdateAllLinksTo
               (save_successor (get_sans_from_cert env) l
                  (latest_common_version l) (new_certr_pem new)
                  (new_key_pem new) (new_chain_pem new)).2] /\
    dry_run config = false /\
    obtain_certificate env domains = Ok new.
Proof.
  intros calls. subst calls.
  destruct (auth_trace_shape env config domains lineage)
    as (t0 & t1 & rep & -> & _ & Hquiet & Hrep & Ht1).
  rewrite !filter_app.
  rewrite (filter_quiet _ t0).
  2:{ eapply Forall_impl; [exact Hquiet|]. intros ev Hev.
      destruct (prompt_or_log_quiet ev Hev) as [-> _]. done. }
  assert (Hr : filter (fun ev => is_persistence_call ev = true) rep = []).
  { by destruct Hrep as [->|[m ->]]. }
  rewrite Hr, app_nil_r. simpl.
  destruct Ht1 as [->|[->|[(m & -> & _)|[(l & new & -> & Hwet & Hnew)| ->]]]];
    try by left.
  right. by exists l, new.
Qed.

(** X8. Every run of the executor calls the protocol client at most once,
    and every question to the user and every matcher warning comes
    before that call. *)
Theorem X8_one_authority_call_after_prompts env config domains lineage :
  exists before after_call,
    trace (_auth_from_domains env config domains lineage) = before ++ after_call /\
    Forall (fun ev => is_authority_call ev = false) before /\
    Forall (fun ev => is_prompt ev = false /\ is_warning ev = false) after_call /\
    length (filter (fun ev => is_authority_call ev = true) after_call) <= 1.
Proof.
  destruct (auth_trace_shape env config domains lineage)
    as (t0 & t1 & rep & -> & _ & Hquiet & Hrep & Ht1).
  exists t0, (t1 ++ rep). split; [done|]. split.
  { eapply Forall_impl; [exact Hquiet|]. by intros [| | | | ? []| | | | | | | |]. }
  assert (Hr1 : Forall (fun ev => is_prompt ev = false /\ is_warning ev = false) rep).
  { destruct Hrep as [->|[m ->]]; by repeat constructor. }
  assert (Hr2 : filter (fun ev => is_authority_call ev = true) rep = []).
  { by destruct Hrep as [->|[m ->]]. }
  rewrite filter_app, Hr2, app_nil_r.
  destruct Ht1 as [->|[->|[(m & -> & _)|[(l & new & -> & _ & _)| ->]]]];
    (split; [apply Forall_app; split; [by repeat constructor|done] | simpl; lia]).
Qed.

(** X9. A failed issuance ends the run where it happens, with nothing
    saved, linked or reported: a renewal whose request to the protocol
    client raises ends with that exception, and so does an enrolment; an
    enrolment that answers False ends with the error "Certificate could
    not be obtained". *)
Theorem X9_failed_issuance_ends_the_run env config domains lineage t0 act lo :
  resolve_action env config domains lineage = (t0, Ok (act, lo)) ->
  (forall l e,
      act = renew_action -> lo = Some l ->
      outcome (_avoid_invalidating_lineage env config l
                 (renewalparams_server l)) = Ok tt ->
      obtain_certificate env domains = Raise e ->
      _auth_from_domains env config domains lineage =
        (t0 ++ [EvObtainCertificate domains], Raise e)) /\
  (forall e,
      act = newcert_action ->
      obtain_and_enroll_certificate env domains = Raise e ->
      _auth_from_domains env config domains lineage =
        (t0 ++ [EvObtainAndEnroll domains], Raise e)) /\
  (act = newcert_action ->
   obtain_and_enroll_certificate env domains = Ok NotEnrolled ->
   _auth_from_domains env config domains lineage =
     (t0 ++ [EvObtainAndEnroll domains],
      Raise (Exn Error "Certificate could not be obtained"))).
Proof.
  intros Hres. split_and!.
  - intros l e -> -> Hguard Hfail.
    rewrite (auth_from_domains_renew _ _ _ _ _ _ Hres).
    by rewrite (renew_lineage_obtain_fails _ _ _ _ _ Hguard Hfail).
  - intros e -> Hfail.
    by rewrite (auth_from_domains_newcert _ _ _ _ _ _ Hres), Hfail.
  - intros -> Hfail.
    by rewrite (auth_from_domains_newcert _ _ _ _ _ _ Hres), Hfail.
Qed.

Lemma X9_failed_issuance_ends_the_run_witness :
  _auth_from_domains Cases.env_no_issuance Sample.certonly ["a.com"] None =
  ([EvObtainAndEnroll ["a.com"]],
   Raise (Exn Error "Certificate could not be obtained")).
Proof.
  destruct (X9_failed_issuance_ends_the_run Cases.env_no_issuance
              Sample.certonly ["a.com"] None [] newcert_action None eq_refl)
    as (_ & _ & H).
  exact (H eq_refl eq_refl).
Defined.

(** X10. A run that completes with the reinstall action was not given a
    lineage, consists of the resolver's calls alone, and returns the
    lineage the resolver chose: nothing is asked of the protocol client,
    nothing is saved or linked, and no new certificate is reported. *)
Theorem X10_reinstall_touches_nothing env config domains lineage t lo :
  _auth_from_domains env config domains lineage = (t, Ok (lo, reinstall_action)) ->
  lineage = None /\
  _treat_as_renewal env config domains = (t, Ok (reinstall_action, lo)) /\
  Forall (fun ev => is_authority_call ev = false /\
                    is_persistence_call ev = false /\
                    is_new_cert_report ev = false) t.
Proof.
  intros Hrun.
  destruct (resolve_action_cases env config domains lineage)
    as (t0 & r & Hres & Hquiet).
  assert (Hr : r = Ok (reinstall_action, lo) /\ t = t0).
  { destruct r as [[[| |] lo0]|e].
    - rewrite (auth_from_domains_reinstall _ _ _ _ _ _ Hres) in Hrun.
      by injection Hrun as -> ->.
    - exfalso. destruct lo0 as [l|].
      + rewrite (auth_from_domains_renew _ _ _ _ _ _ Hres) in Hrun.
        unfold after in Hrun. msimpl.
        destruct (renew_lineage env config domains l) as [t1 [l'|e1]];
          msimpl; [|done].
        destruct (report_and_return env config (Some l') renew_action)
          as [tr [rr|er]] eqn:Hrr; msimpl; [|done].
        apply report_and_return_inv in Hrr as ->. done.
      + unfold _auth_from_domains in Hrun. rewrite Hres in Hrun. done.
    - exfalso. rewrite (auth_from_domains_newcert _ _ _ _ _ _ Hres) in Hrun.
      destruct (obtain_and_enroll_certificate env domains) as [[l| |]|e];
        [|done| |done].
      * unfold after in Hrun.
        destruct (report_and_return env config (Some l) newcert_action)
          as [tr [rr|er]] eqn:Hrr; simpl in Hrun; [|done].
        apply report_and_return_inv in Hrr as ->. done.
      * unfold after in Hrun.
        destruct (report_and_return env config None newcert_action)
          as [tr [rr|er]] eqn:Hrr; simpl in Hrun; [|done].
        apply report_and_return_inv in Hrr as ->. done.
    - unfold _auth_from_domains in Hrun. rewrite Hres in Hrun. done. }
  destruct Hr as [-> ->]. destruct lineage as [l|]; [done|].
  split; [done|]. split; [done|].
  eapply Forall_impl; [exact Hquiet|]. by intros [| | | | ? []| | | | | | | |].
Qed.

Lemma X10_reinstall_touches_nothing_witness :
  _treat_as_renewal Cases.env_a Cases.certonly_reinstall ["a.com"] =
  ([], Ok (reinstall_action, Some Sample.a)).
Proof.
  destruct (X10_reinstall_touches_nothing Cases.env_a Cases.certonly_reinstall
              ["a.com"] None [] (Some Sample.a) eq_refl) as (_ & H & _).
  exact H.
Defined.

(** X11. A run on a lineage handed in by the caller asks the user nothing,
    consults no renewal file and enrols nothing. When it completes, its
    action is renew, the guard has passed on the server recorded for the
    lineage handed in, the protocol client has answered for the
    requested domains, and the lineage returned is the one handed in:
    as it was in a dry run, and otherwise after the successor holding
    the new certificate was saved and linked. *)
Theorem X11_given_lineage_is_renewed_silently env config domains l :
  Forall (fun ev => is_prompt ev = false /\ is_warning ev = false /\
                    forall d, ev <> EvObtainAndEnroll d)
         (trace (_auth_from_domains env config domains (Some l))) /\
  (forall t lo act,
      _auth_from_domains env config domains (Some l) = (t, Ok (lo, act)) ->
      act = renew_action /\
      outcome (_avoid_invalidating_lineage env config l
                 (renewalparams_server l)) = Ok tt /\
      exists new,
        obtain_certificate env domains = Ok new /\
        (dry_run config = true -> lo = Some l) /\
        (dry_run config = false ->
         lo = Some (update_all_links_to
                      (save_successor (get_sans_from_cert env) l
                         (latest_common_version l) (new_certr_pem new)
                         (new_key_pem new) (new_chain_pem new)).1
                      (save_successor (get_sans_from_cert env) l
                         (latest_common_version l) (new_certr_pem new)
                         (new_key_pem new) (new_chain_pem new)).2))).
Proof.
  split.
  - rewrite (auth_from_domains_renew env config domains (Some l) [] l eq_refl).
    unfold after. simpl.
    destruct (outcome (_avoid_invalidating_lineage env config l
                         (renewalparams_server l))) as [[]|eg] eqn:Hguard.
    2:{ rewrite (renew_lineage_guarded _ _ _ _ _ Hguard). constructor. }
    destruct (obtain_certificate env domains) as [new|eo] eqn:Hnew.
    2:{ rewrite (renew_lineage_obtain_fails _ _ _ _ _ Hguard Hnew).
        by repeat constructor. }
    destruct (dry_run config) eqn:Hdry.
    + rewrite (renew_lineage_dry _ _ _ _ Hdry Hguard), Hnew. msimpl.
      rewrite report_and_return_dry by done. by repeat constructor.
    + rewrite (renew_lineage_saves _ _ _ _ _ Hdry Hguard Hnew). msimpl.
      rewrite report_and_return_cases.
      destruct (negb (dry_run config) && negb (String.eqb (verb config) "renew"));
        [destruct (notAfter_date env _)|]; by repeat constructor.
  - intros t lo act.
    rewrite (auth_from_domains_renew env config domains (Some l) [] l eq_refl).
    unfold after. msimpl.
    destruct (outcome (_avoid_invalidating_lineage env config l
                         (renewalparams_server l))) as [[]|eg] eqn:Hguard.
    2:{ by rewrite (renew_lineage_guarded _ _ _ _ _ Hguard). }
    destruct (obtain_certificate env domains) as [new|eo] eqn:Hnew.
    2:{ by rewrite (renew_lineage_obtain_fails _ _ _ _ _ Hguard Hnew). }
    destruct (dry_run config) eqn:Hdry.
    + rewrite (renew_lineage_dry _ _ _ _ Hdry Hguard), Hnew. msimpl.
      rewrite report_and_return_dry by done. msimpl.
      intros [= <- <- <-]. split_and!; [done|done|]. by exists new.
    + rewrite (renew_lineage_saves _ _ _ _ _ Hdry Hguard Hnew). msimpl.
      destruct (report_and_return env config _ renew_action)
        as [tr [rr|er]] eqn:Hrr; msimpl; [|done].
      apply report_and_return_inv in Hrr as ->.
      intros [= <- <- <-]. split_and!; [done|done|]. by exists new.
Qed.

(** X12. With duplication allowed and no lineage given, the executor goes
    straight to enrolment, whatever lineages are stored: its first call
    is the enrolment, no renewal file is consulted and no question asked,
    and a run that completes is a newcert returning what the enrolment
    answered: the lineage enrolled, or no lineage when the enrolment
    answered [None], which completes only in a dry run or under the verb
    "renew". *)
Theorem X12_duplicate_enrols_unconditionally env config domains :
  duplicate config = true ->
  (exists rest,
      trace (_auth_from_domains env config domains None) =
        EvObtainAndEnroll domains :: rest /\
      Forall (fun ev => is_prompt ev = false /\ is_warning ev = false) rest) /\
  (forall t lo act,
      _auth_from_domains env config domains None = (t, Ok (lo, act)) ->
      act = newcert_action /\
      ((exists l, lo = Some l /\
                  obtain_and_enroll_certificate env domains = Ok (Enrolled l)) \/
       (lo = None /\
        obtain_and_enroll_certificate env domains = Ok NoLineage /\
        (dry_run config = true \/ verb config = "renew")))).
Proof.
  intros Hdup.
  assert (Hres : resolve_action env config domains None =
                 ([], Ok (newcert_action, None))).
  { unfold resolve_action, _treat_as_renewal. by rewrite Hdup. }
  rewrite (auth_from_domains_newcert _ _ _ _ _ _ Hres).
  destruct (obtain_and_enroll_certificate env domains) as [[l| |]|e].
  - rewrite report_and_return_cases. unfold after.
    destruct (negb (dry_run config) && negb (String.eqb (verb config) "renew")).
    + destruct (notAfter_date env (cert l)) as [expiry|e]; simpl.
      * split; [eexists; split; [done|by repeat constructor]|].
        intros t lo act [= <- <- <-]. split; [done|]. left. by exists l.
      * split; [by exists [] | done].
    + simpl. split; [by exists []|].
      intros t lo act [= <- <- <-]. split; [done|]. left. by exists l.
  - split; [by exists [] | done].
  - rewrite report_and_return_none. unfold after.
    destruct (dry_run config) eqn:Hdry; simpl.
    { split; [by exists []|].
      intros t lo act [= <- <- <-]. split; [done|]. right. eauto. }
    destruct (String.eqb (verb config) "renew") eqn:Hverb; simpl.
    + apply String.eqb_eq in Hverb. split; [by exists []|].
      intros t lo act [= <- <- <-]. split; [done|]. right. eauto.
    + split; [by exists [] | done].
  - split; [by exists [] | done].
Qed.

Lemma X12_duplicate_enrols_unconditionally_witness :
  exists rest,
    trace (_auth_from_domains Cases.env_a Cases.certonly_duplicate ["a.com"] None)
    = EvObtainAndEnroll ["a.com"] :: rest.
Proof.
  destruct (X12_duplicate_enrols_unconditionally Cases.env_a
              Cases.certonly_duplicate ["a.com"] eq_refl)
    as [(rest & H & _) _].
  exists rest. exact H.
Defined.

(** ** The account resolver *)

Lemma prompt_email_cases env config :
  prompt_email env config = ([], Ok config) \/
  (email config = None /\ register_unsafely_without_email config = false /\
   ((exists em, get_email env = Ok em /\
                prompt_email env config =
                  ([EvGetEmail], Ok (set_email em config))) \/
    (exists e, get_email env = Raise e /\
               prompt_email env config = ([EvGetEmail], Raise e)))).
Proof.
  unfold prompt_email.
  destruct (email config) as [em|]; [by left|].
  destruct (register_unsafely_without_email config); [by left|].
  right. split; [done|]. split; [done|]. msimpl.
  destruct (get_email env) as [em|e]; [left|right]; by eexists.
Qed.

(** X13. When the account resolver succeeds, the configuration it returns
    names the account it returns and differs from the one given in
    nothing else, except for the e-mail address asked for before a
    registration; a protocol client is returned only by a registration,
    that is, only when no account was named and none was stored. *)
Theorem X13_resolved_account_is_recorded env config t acc acme config' :
  _determine_account env config = (t, Ok (acc, acme, config')) ->
  account config' = Some (acc_id acc) /\
  (config' = set_account (acc_id acc) config \/
   exists em, email config = None /\ get_email env = Ok em /\
              config' = set_account (acc_id acc) (set_email em config)) /\
  (acme ≠ None -> account config = None /\ account_find_all env = []).
Proof.
  unfold _determine_account.
  destruct (account config) as [name|] eqn:Hacc.
  { msimpl. destruct (account_load env name) as [a|e]; msimpl; [|done].
    intros [= <- <- <- <-]. split_and!; [done | by left | done]. }
  destruct (account_find_all env) as [|a [|b rest]] eqn:Hall; simpl.
  - destruct (prompt_email_cases env config)
      as [Hp|(Hnone & _ & [(em & Hem & Hp)|(e & _ & Hp)])];
      rewrite Hp; msimpl; [| |done].
    + destruct (register_account env config) as [tr [[a ac]|e]]; msimpl; [|done].
      intros [= <- <- <- <-]. split_and!; [done | by left | done].
    + destruct (register_account env (set_email em config))
        as [tr [[a ac]|e]]; msimpl; [|done].
      intros [= <- <- <- <-]. split_and!; [done | right; by exists em | done].
  - intros [= <- <- <- <-]. split_and!; [done | by left | done].
  - destruct (choose_account env (a :: b :: rest)) as [c|]; msimpl; [|done].
    intros [= <- <- <- <-]. split_and!; [done | by left | done].
Qed.

Lemma X13_resolved_account_is_recorded_witness :
  account (set_account (acc_id Cases.alice) Sample.certonly)
  = Some (acc_id Cases.alice).
Proof.
  destruct (X13_resolved_account_is_recorded Cases.env_one_account
              Sample.certonly [EvAccountFindAll] Cases.alice None
              (set_account (acc_id Cases.alice) Sample.certonly) eq_refl)
    as [H _].
  exact H.
Defined.

(** X14. An account is registered only when none is named and none is
    stored. Otherwise the calls of the resolver are the load of the
    account named, or the listing of the stored accounts followed, when
    more than one is stored, by the choice put to the user: nothing is
    registered and no e-mail address is asked for, the result does not
    depend on what the registration or the e-mail prompt would do, and a
    named account that fails to load ends the resolution with that
    failure as it is. *)
Theorem X14_no_registration_when_an_account_exists env config :
  (account config ≠ None \/ account_find_all env ≠ []) ->
  ((exists name,
       account config = Some name /\
       trace (_determine_account env config) = [EvAccountLoad name]) \/
   (account config = None /\ length (account_find_all env) = 1 /\
    trace (_determine_account env config) = [EvAccountFindAll]) \/
   (account config = None /\ 1 < length (account_find_all env) /\
    trace (_determine_account env config) =
      [EvAccountFindAll; EvChooseAccount (account_find_all env)])) /\
  (forall r g,
      _determine_account (with_registration r g env) config =
      _determine_account env config) /\
  (forall name e,
      account config = Some name -> account_load env name = Raise e ->
      _determine_account env config = ([EvAccountLoad name], Raise e)).
Proof.
  intros Hex. unfold _determine_account. simpl.
  destruct (account config) as [name|] eqn:Hacc.
  { msimpl. destruct (account_load env name) as [a|e] eqn:Hload; msimpl.
    - split_and!; [left; by exists name | done |].
      intros ? ? [= <-] ?. congruence.
    - split_and!; [left; by exists name | done |].
      intros ? ? [= <-] ?. congruence. }
  destruct Hex as [?|Hall]; [done|].
  destruct (account_find_all env) as [|a [|b rest]]; [done| |]; simpl.
  - split_and!; [right; left; done | done | done].
  - msimpl. destruct (choose_account env (a :: b :: rest)); msimpl;
      (split_and!; [right; right; split_and!; [done | simpl; lia | done]
                   | done | done]).
Qed.

Lemma X14_no_registration_when_an_account_exists_witness :
  _determine_account Cases.env_one_account Sample.certonly =
  ([EvAccountFindAll],
   Ok (Cases.alice, None, set_account "a1b2c3" Sample.certonly)).
Proof.
  destruct (X14_no_registration_when_an_account_exists Cases.env_one_account
              Sample.certonly) as (_ & H & _).
  - right. discriminate.
  - rewrite <- (H (fun _ _ => ([], Raise Sample.boom)) (Raise Sample.boom)).
    reflexivity.
Defined.

(** * Properties of the verb functions *)

Ltac vsimpl :=
  cbn [mbind mret V_bind V_ret vbind vraise vlift does engine calls result
       fmap list_fmap fst snd app] in *.

Lemma vbind_trace_Forall {A B} (P : call -> Prop) (m : V A) (f : A -> V B) :
  Forall P (calls m) ->
  (forall t a, m = (t, Ok a) -> Forall P (calls (f a))) ->
  Forall P (calls (m ≫= f)).
Proof.
  intros Hm Hf. destruct m as [t [a|e]]; vsimpl; [|done].
  specialize (Hf t a eq_refl). destruct (f a) as [t' r]. vsimpl.
  by apply Forall_app.
Qed.

Lemma engine_trace {A} (P : call -> Prop) (m : M A) :
  (forall ev, P (Engine ev)) -> Forall P (calls (engine m)).
Proof.
  intros HP. destruct m as [t r]. unfold engine, calls. simpl.
  induction t; constructor; auto.
Qed.

Lemma Forall_excludes (p : call -> bool) (t : list call) (c : call) :
  Forall (fun x => p x = false) t -> c ∈ t -> p c = true -> False.
Proof.
  intros Hall Hin Hc. rewrite Forall_forall in Hall.
  specialize (Hall c Hin). congruence.
Qed.

Lemma process_domains_run ds :
  process_domains ds = (ProcessDomain <$> ds, Ok tt).
Proof.
  induction ds as [|d ds IH]; [done|]. simpl. rewrite IH. done.
Qed.

Lemma find_domains_cases sh a inst :
  _find_domains sh a inst =
  match args.domains a with
  | [] =>
      match choose_names sh inst with
      | [] => ([ChooseNames inst], Raise (Exn Error no_domains_msg))
      | d :: ds =>
          (ChooseNames inst :: (ProcessDomain <$> (d :: ds)), Ok (d :: ds))
      end
  | d :: ds => ([], Ok (d :: ds))
  end.
Proof.
  unfold _find_domains. destruct (args.domains a) as [|d ds]; [|done].
  vsimpl. rewrite process_domains_run.
  destruct (choose_names sh inst) as [|d ds]; vsimpl; by rewrite ?app_nil_r.
Qed.

(** X15. [_find_domains] never answers with an empty list. Configured
    domains are returned as they are without any call; otherwise the
    names are chosen once and each chosen name is processed, in order;
    the only failure is the error asking for domains, raised when
    nothing is configured and nothing was chosen. *)
Theorem X15_find_domains_never_empty sh a inst :
  (forall t ds,
      _find_domains sh a inst = (t, Ok ds) ->
      ds ≠ [] /\
      (args.domains a ≠ [] -> ds = args.domains a /\ t = []) /\
      (args.domains a = [] ->
       ds = choose_names sh inst /\
       t = ChooseNames inst :: (ProcessDomain <$> ds))) /\
  (forall t e,
      _find_domains sh a inst = (t, Raise e) ->
      e = Exn Error no_domains_msg /\
      args.domains a = [] /\ choose_names sh inst = []).
Proof.
  rewrite find_domains_cases.
  destruct (args.domains a) as [|d ds].
  - destruct (choose_names sh inst) as [|d ds].
    + split; [done|]. by intros t e [= <- <-].
    + split; [|done]. intros t ds' [= <- <-]. done.
  - split; [|done]. intros t ds' [= <- <-]. done.
Qed.

(** ** Where a call can come from *)

Lemma elem_of_calls_bind {A B} (m : V A) (f : A -> V B) (c : call) :
  c ∈ calls (m ≫= f) ->
  c ∈ calls m \/ exists t a, m = (t, Ok a) /\ c ∈ calls (f a).
Proof.
  destruct m as [t [a|e]]; vsimpl; [|by left].
  destruct (f a) as [t' r] eqn:Hf. vsimpl.
  intros [Hin|Hin]%elem_of_app; [by left|].
  right. exists t, a. by rewrite Hf.
Qed.

Lemma elem_of_does (c x : call) : c ∈ calls (does x) -> c = x.
Proof. unfold does, calls. simpl. by intros ->%list_elem_of_singleton. Qed.

Lemma elem_of_engine {A} (m : M A) (c : call) :
  c ∈ calls (engine m) -> exists ev, c = Engine ev /\ ev ∈ trace m.
Proof.
  unfold engine, calls, trace. simpl.
  intros (ev & -> & Hin)%list_elem_of_fmap. eauto.
Qed.

Lemma engine_inv {A} (m : M A) t (a : A) :
  engine m = (t, Ok a) -> m = (trace m, Ok a) /\ t = Engine <$> trace m.
Proof. destruct m as [t0 r]. unfold engine. simpl. by intros [= <- ->]. Qed.

Lemma elem_of_find_domains sh a inst (c : call) :
  c ∈ calls (_find_domains sh a inst) ->
  (exists i, c = ChooseNames i) \/ (exists d, c = ProcessDomain d).
Proof.
  rewrite find_domains_cases.
  destruct (args.domains a); [|by intros ?%elem_of_nil].
  destruct (choose_names sh inst) as [|d ds]; unfold calls; simpl.
  - intros ->%list_elem_of_singleton. eauto.
  - intros [->|Hin]%elem_of_cons; [eauto|].
    change (c ∈ ProcessDomain <$> (d :: ds)) in Hin.
    apply list_elem_of_fmap in Hin as (d' & -> & _). eauto.
Qed.

Lemma find_domains_ok sh a inst t ds :
  _find_domains sh a inst = (t, Ok ds) -> ds ≠ [].
Proof.
  rewrite find_domains_cases.
  destruct (args.domains a); [destruct (choose_names sh inst)|];
    by intros [= <- <-].
Qed.

Lemma elem_of_init_le_client sh config auth inst (c : call) :
  c ∈ calls (_init_le_client sh config auth inst) ->
  auth ≠ None /\ exists ev, c = Engine ev.
Proof.
  unfold _init_le_client. destruct auth as [x|]; [|by intros ?%elem_of_nil].
  intros [Hin|(t & a & _ & Hin)]%elem_of_calls_bind.
  - apply elem_of_engine in Hin as (ev & -> & _). eauto.
  - destruct a as [[acc acme] config']. by apply elem_of_nil in Hin.
Qed.

Lemma determine_account_keeps_flags env config t acc acme config' :
  _determine_account env config = (t, Ok (acc, acme, config')) ->
  dry_run config' = dry_run config /\ verb config' = verb config /\
  staging config' = staging config.
Proof.
  unfold _determine_account.
  destruct (account config) as [name|].
  { destruct (account_load env name) as [a|e]; msimpl; [|done].
    by intros [= <- <- <- <-]. }
  destruct (account_find_all env) as [|a [|b rest]]; simpl.
  - destruct (prompt_email_cases env config)
      as [Hp|(_ & _ & [(em & _ & Hp)|(e & _ & Hp)])];
      rewrite Hp; msimpl; [| |done].
    + destruct (register_account env config) as [tr [[a ac]|e]]; msimpl; [|done].
      by intros [= <- <- <- <-].
    + destruct (register_account env (set_email em config))
        as [tr [[a ac]|e]]; msimpl; [|done].
      by intros [= <- <- <- <-].
  - by intros [= <- <- <- <-].
  - destruct (choose_account env (a :: b :: rest)) as [c|]; msimpl; [|done].
    by intros [= <- <- <- <-].
Qed.

Lemma init_le_client_keeps_flags sh config auth inst t cl config' :
  _init_le_client sh config auth inst = (t, Ok (cl, config')) ->
  dry_run config' = dry_run config /\ verb config' = verb config /\
  staging config' = staging config.
Proof.
  unfold _init_le_client. destruct auth as [x|]; [|by intros [= <- <- <-]].
  destruct (engine (_determine_account (core sh) config))
    as [t0 [[[acc acme] cfg]|e]] eqn:Heng; vsimpl; [|done].
  intros [= <- <- <-].
  apply engine_inv in Heng as [Hrun _].
  by apply determine_account_keeps_flags in Hrun.
Qed.

Lemma vbind_ok_inv {A B} (m : V A) (f : A -> V B) t (b : B) :
  m ≫= f = (t, Ok b) ->
  exists t1 a t2, m = (t1, Ok a) /\ f a = (t2, Ok b) /\ t = t1 ++ t2.
Proof.
  destruct m as [t1 [a|e]]; vsimpl; [|done].
  destruct (f a) as [t2 r] eqn:Hf. intros [= <- ->]. by exists t1, a, t2.
Qed.

(** Takes apart a hypothesis that a call occurs among the calls of a
    verb function. *)
Ltac in_calls H :=
  repeat first
    [ apply elem_of_find_domains in H as [[? H]|[? H]]
    | apply elem_of_init_le_client in H as [_ [? H]]
    | apply elem_of_engine in H as (? & H & _)
    | apply elem_of_calls_bind in H as [H|(? & ? & ? & H)]
    | apply elem_of_does in H
    | apply elem_of_nil in H; destruct H
    | progress cbv beta iota in H
    | match type of H with
      | _ ∈ calls (match ?x with _ => _ end) => destruct x eqn:?
      end ].

(** ** Plugin selection, installation and the run verb *)

(** X16. A failed plugin selection is handled differently by the verbs:
    [install] and [run] return its message as their value and do nothing
    else, while [obtain_cert] logs it and raises it again. Any other
    exception of the selection is raised by all three. *)
Theorem X16_plugin_selection_failure sh config a lineage :
  (forall e,
      choose_configurator_plugins sh "install" = Raise e ->
      install sh config a =
        ([ChoosePlugins "install"],
         if is_PluginSelectionError e then Ok (Some (exn_msg e)) else Raise e)) /\
  (forall e,
      choose_configurator_plugins sh "run" = Raise e ->
      run sh config a =
        ([ChoosePlugins "run"],
         if is_PluginSelectionError e then Ok (Some (exn_msg e)) else Raise e)) /\
  (forall e,
      choose_configurator_plugins sh "certonly" = Raise e ->
      result (obtain_cert sh config a lineage) = Raise e /\
      calls (obtain_cert sh config a lineage) =
        ChoosePlugins "certonly" ::
        if is_PluginSelectionError e
        then [Engine (EvLog "info" ("Could not choose appropriate plugin: " +:+
                                    exn_msg e))]
        else []).
Proof.
  split_and!; intros e Hsel.
  - unfold install. rewrite Hsel. vsimpl. by destruct (is_PluginSelectionError e).
  - unfold run. rewrite Hsel. vsimpl. by destruct (is_PluginSelectionError e).
  - unfold obtain_cert. rewrite Hsel. vsimpl.
    by destruct (is_PluginSelectionError e).
Qed.

(** X17. [install] resolves no account and makes no call of the engine.
    When it deploys, it deploys for a non-empty list of domains exactly
    the key, certificate, chain and full chain paths of the
    configuration, and the certificate path is set; it deploys at most
    once. *)
Theorem X17_install_deploys_the_configured_paths sh config a :
  Forall (fun c => is_engine c = false) (calls (install sh config a)) /\
  (forall d k c ch f,
      DeployCertificate d k c ch f ∈ calls (install sh config a) ->
      d ≠ [] /\ k = args.key_path a /\ c = args.cert_path a /\
      ch = args.chain_path a /\ f = args.fullchain_path a /\ c ≠ None) /\
  length (filter (fun c => is_deploy c = true) (calls (install sh config a))) <= 1.
Proof.
  assert (Hshape :
    exists pre post,
      calls (install sh config a) = pre ++ post /\
      Forall (fun c => is_engine c = false /\ is_deploy c = false) pre /\
      (post = [] \/
       exists d rest,
         d ≠ [] /\ args.cert_path a ≠ None /\
         post = DeployCertificate d (args.key_path a) (args.cert_path a)
                  (args.chain_path a) (args.fullchain_path a) :: rest /\
         Forall (fun c => is_engine c = false /\ is_deploy c = false) rest)).
  { unfold install, _init_le_client.
    destruct (choose_configurator_plugins sh "install") as [[inst auth]|e];
      vsimpl.
    2:{ exists [ChoosePlugins "install"], [].
        destruct (is_PluginSelectionError e); vsimpl;
          (split; [done|]); (split; [by repeat constructor | by left]). }
    pose proof (find_domains_ok sh a inst) as Hne.
    assert (Hfd : Forall (fun c => is_engine c = false /\ is_deploy c = false)
                         (calls (_find_domains sh a inst))).
    { apply Forall_forall. intros c Hc.
      by apply elem_of_find_domains in Hc as [[i ->]|[d ->]]. }
    destruct (_find_domains sh a inst) as [t1 [d|e]]; vsimpl.
    2:{ exists (ChoosePlugins "install" :: t1), []. rewrite app_nil_r.
        split; [done|]. split; [by constructor | by left]. }
    specialize (Hne t1 d eq_refl). unfold calls in Hfd. simpl in Hfd.
    destruct (args.cert_path a) as [cp|] eqn:Hcp; vsimpl.
    2:{ exists (ChoosePlugins "install" :: t1), []. rewrite !app_nil_r.
        split; [done|]. split; [by constructor | by left]. }
    exists (ChoosePlugins "install" :: t1).
    destruct (deploy_certificate sh d) as [[]|e]; vsimpl.
    2:{ eexists. split; [done|]. split; [by constructor|]. right.
        by exists d, []. }
    destruct (enhance_config sh d) as [[]|e]; vsimpl.
    - eexists. split; [done|]. split; [by constructor|]. right.
      exists d, [EnhanceConfig d].
      split_and!; try done. by repeat constructor.
    - eexists. split; [done|]. split; [by constructor|]. right.
      exists d, [EnhanceConfig d].
      split_and!; try done. by repeat constructor. }
  destruct Hshape as (pre & post & -> & Hpre & Hpost).
  assert (Hpre_dep : forall x, x ∈ pre -> is_deploy x = false).
  { intros x Hx. rewrite Forall_forall in Hpre. by destruct (Hpre x Hx). }
  split_and!.
  - apply Forall_app. split.
    + eapply Forall_impl; [exact Hpre|]. by intros c [? _].
    + destruct Hpost as [->|(d & rest & _ & _ & -> & Hrest)]; [done|].
      constructor; [done|]. eapply Forall_impl; [exact Hrest|]. by intros c [? _].
  - intros d k c ch f [Hin|Hin]%elem_of_app.
    { by specialize (Hpre_dep _ Hin). }
    destruct Hpost as [->|(d' & rest & Hne & Hcp & -> & Hrest)].
    { by apply elem_of_nil in Hin. }
    apply elem_of_cons in Hin as [[= -> -> -> -> ->]|Hin]; [done|].
    rewrite Forall_forall in Hrest. by destruct (Hrest _ Hin).
  - rewrite filter_app, length_app.
    rewrite (filter_quiet _ pre).
    2:{ eapply Forall_impl; [exact Hpre|]. intros c [_ ->]. done. }
    destruct Hpost as [->|(d & rest & _ & _ & -> & Hrest)]; [simpl; lia|].
    rewrite filter_cons_True by done.
    rewrite (filter_quiet _ rest).
    2:{ eapply Forall_impl; [exact Hrest|]. intros c [_ ->]. done. }
    simpl. lia.
Qed.

(** X18. [run] deploys only what the executor returned: a deployment among
    its calls means that domains were found, that the executor, run
    without a given lineage on those domains (under the configuration
    left by the account resolution, whose verb and dry-run flag are
    those given), completed with a lineage, and that the paths deployed
    are that lineage's key, certificate, chain and full chain. *)
Theorem X18_run_deploys_the_resolved_lineage sh config a d k c ch f :
  DeployCertificate d k c ch f ∈ calls (run sh config a) ->
  exists config' l act,
    d ≠ [] /\
    outcome (_auth_from_domains (core sh) config' d None) = Ok (Some l, act) /\
    dry_run config' = dry_run config /\ verb config' = verb config /\
    k = Some (privkey sh l) /\ c = Some (cert l) /\
    ch = Some (chain sh l) /\ f = Some (fullchain l).
Proof.
  intros H. unfold run in H. in_calls H; try discriminate.
  injection H as -> -> -> -> ->.
  match goal with
  | Hfd : _find_domains _ _ _ = _ |- _ => apply find_domains_ok in Hfd
  end.
  match goal with
  | Hi : _init_le_client _ _ _ _ = _ |- _ =>
      apply init_le_client_keeps_flags in Hi as (? & ? & _)
  end.
  match goal with
  | He : engine _ = _ |- _ => apply engine_inv in He as [Hrun _]
  end.
  eexists _, _, _. split_and!; try done. by rewrite Hrun.
Qed.

Lemma X18_run_deploys_the_resolved_lineage_witness :
  exists config' l act,
    outcome (_auth_from_domains (core Cases.shell) config' ["a.com"] None)
    = Ok (Some l, act).
Proof.
  destruct (X18_run_deploys_the_resolved_lineage Cases.shell Sample.certonly
              Cases.no_args ["a.com"]
              (Some "/etc/letsencrypt/live/new/cert.pem.key")
              (Some "/etc/letsencrypt/live/new/cert.pem")
              (Some "/etc/letsencrypt/live/new/cert.pem.chain")
              (Some "/etc/letsencrypt/live/new/fullchain.pem"))
    as (config' & l & act & _ & H & _).
  - vm_compute. apply list_elem_of_In. simpl. auto 10.
  - exists config', l, act. exact H.
Defined.

(** ** Obtaining a certificate *)



(** X20. In [obtain_cert] a certificate is requested from a CSR only in
    CSR mode without a lineage, for the configured domains and the
    configured CSR; it is saved only then and only outside a dry run, to
    the configured paths; and a CSR together with a lineage never
    completes and requests nothing. *)
Theorem X20_csr_mode sh config a lineage :
  (forall d c t,
      ObtainCertificateFromCsr d c t ∈ calls (obtain_cert sh config a lineage) ->
      args.csr a ≠ None /\ lineage = None /\
      d = args.domains a /\ (c, t) = args.actual_csr a) /\
  (forall cp chp fp,
      SaveCertificate cp chp fp ∈ calls (obtain_cert sh config a lineage) ->
      args.csr a ≠ None /\ lineage = None /\ dry_run config = false /\
      cp = args.cert_path a /\ chp = args.chain_path a /\
      fp = args.fullchain_path a) /\
  (args.csr a ≠ None -> lineage ≠ None ->
   (forall r, result (obtain_cert sh config a lineage) ≠ Ok r) /\
   Forall (fun c => is_engine c = true \/ c = ChoosePlugins "certonly")
          (calls (obtain_cert sh config a lineage))).
Proof.
  split_and!.
  - intros d c t H. unfold obtain_cert in H. in_calls H; try discriminate.
    injection H as -> -> ->. split_and!; congruence.
  - intros cp chp fp H. unfold obtain_cert in H. in_calls H; try discriminate.
    injection H as -> -> ->.
    match goal with
    | Hi : _init_le_client _ _ _ _ = _ |- _ =>
        apply init_le_client_keeps_flags in Hi as (Hdry & _ & _)
    end.
    split_and!; congruence.
  - intros Hcsr Hlin.
    destruct (args.csr a) as [csr|] eqn:Hc; [|done].
    destruct lineage as [l|]; [|done].
    unfold obtain_cert. rewrite Hc.
    destruct (choose_configurator_plugins sh "certonly") as [[inst auth]|e];
      vsimpl.
    2:{ destruct (is_PluginSelectionError e); vsimpl;
          (split; [done|]); repeat constructor; by left. }
    assert (Hinit : Forall (fun c => is_engine c = true \/
                                     c = ChoosePlugins "certonly")
                           (calls (_init_le_client sh config auth inst))).
    { apply Forall_forall. intros c Hin.
      apply elem_of_init_le_client in Hin as [_ [ev ->]]. by left. }
    destruct (_init_le_client sh config auth inst) as [t1 [[cl cfg]|e]]; vsimpl.
    + rewrite app_nil_r. split; [done|]. constructor; [by right|done].
    + split; [done|]. constructor; [by right|done].
Qed.

Lemma obtain_cert_ok_inv sh config a lineage t :
  obtain_cert sh config a lineage = (t, Ok tt) ->
  exists inst auth cl config' t0 act t1 t2,
    choose_configurator_plugins sh "certonly" = Ok (inst, auth) /\
    _init_le_client sh config auth inst = (t0, Ok (cl, config')) /\
    t = ChoosePlugins "certonly" :: t0 ++ t1 ++ t2 /\
    (if dry_run config' then engine (_report_successful_dry_run config')
     else if String.eqb (verb config') "renew" then
       (match inst with
        | None => mret tt
        | Some _ => does Restart;; vlift (restart sh)
        end);;
       match lineage with
       | None => vraise (Exn AttributeError "NoneType")
       | Some l => does (Print (deployed_line a inst (fullchain l)))
       end
     else mret tt) ≫=
    (fun _ => engine (_suggest_donation_if_appropriate config' act))
    = (t2, Ok tt).
Proof.
  unfold obtain_cert. intros Hrun.
  apply vbind_ok_inv in Hrun as (tc & [] & t' & [= <-] & Hrun & ->).
  destruct (choose_configurator_plugins sh "certonly") as [[inst auth]|e].
  2:{ apply vbind_ok_inv in Hrun as (? & ? & ? & _ & ? & _). done. }
  apply vbind_ok_inv in Hrun as (t0 & [cl config'] & t'' & Hinit & Hrun & ->).
  apply vbind_ok_inv in Hrun as (t1 & act & t2 & Hact & Hclose & ->).
  by exists inst, auth, cl, config', t0, act, t1, t2.
Qed.

(** X21. The closing report of [obtain_cert]. A line about the deployed
    certificate is printed only under the verb "renew", outside a dry
    run and for a lineage that was given, whose full chain path it
    names. A dry run that completes under another verb has told the
    reporter that the dry run was successful; and under the verb
    "renew", outside a dry run, [obtain_cert] completes only when a
    lineage was given. *)
Theorem X21_obtain_cert_closing_report sh config a lineage :
  (forall line,
      Print line ∈ calls (obtain_cert sh config a lineage) ->
      verb config = "renew" /\ dry_run config = false /\
      exists l inst auth,
        lineage = Some l /\
        choose_configurator_plugins sh "certonly" = Ok (inst, auth) /\
        line = deployed_line a inst (fullchain l)) /\
  (result (obtain_cert sh config a lineage) = Ok tt ->
   dry_run config = true -> verb config ≠ "renew" ->
   Engine (EvAddMessage "The dry run was successful." HIGH_PRIORITY)
     ∈ calls (obtain_cert sh config a lineage)) /\
  (result (obtain_cert sh config a lineage) = Ok tt ->
   verb config = "renew" -> dry_run config = false ->
   lineage ≠ None).
Proof.
  split_and!.
  - intros line H. unfold obtain_cert in H. in_calls H; try discriminate.
    injection H as ->.
    match goal with
    | Hi : _init_le_client _ _ _ _ = _ |- _ =>
        apply init_le_client_keeps_flags in Hi as (Hdry & Hverb & _)
    end.
    match goal with
    | Hv : String.eqb _ "renew" = true |- _ => apply String.eqb_eq in Hv
    end.
    split_and!; [congruence | congruence | by eexists _, _, _].
  - intros Hres Hdry Hverb.
    destruct (obtain_cert sh config a lineage) as [t r] eqn:Hrun.
    unfold result in Hres. simpl in Hres. subst r.
    apply obtain_cert_ok_inv in Hrun
      as (inst & auth & cl & config' & t0 & act & t1 & t2 & _ & Hinit & -> & Hclose).
    apply init_le_client_keeps_flags in Hinit as (Hd & Hv & _).
    rewrite Hd, Hdry in Hclose.
    apply vbind_ok_inv in Hclose as (t3 & [] & t4 & Hrep & _ & ->).
    unfold _report_successful_dry_run in Hrep.
    rewrite Hv in Hrep. apply String.eqb_neq in Hverb. rewrite Hverb in Hrep.
    injection Hrep as <-. unfold calls. simpl.
    apply elem_of_cons. right. rewrite !elem_of_app. right. right.
    apply elem_of_cons. by left.
  - intros Hres Hverb Hdry ->.
    destruct (obtain_cert sh config a None) as [t r] eqn:Hrun.
    unfold result in Hres. simpl in Hres. subst r.
    apply obtain_cert_ok_inv in Hrun
      as (inst & auth & cl & config' & t0 & act & t1 & t2 & _ & Hinit & -> & Hclose).
    apply init_le_client_keeps_flags in Hinit as (Hd & Hv & _).
    rewrite Hd, Hdry, Hv, Hverb in Hclose. simpl in Hclose.
    apply vbind_ok_inv in Hclose as (t3 & [] & t4 & Hrep & _ & ->).
    apply vbind_ok_inv in Hrep as (? & ? & ? & _ & ? & _). done.
Qed.

(** * Properties of the exception handler and of the displays *)

Lemma string_app_assoc (a b c : string) : (a +:+ b) +:+ c = a +:+ b +:+ c.
Proof.
  induction a as [|x a IH]; [done|].
  change (String x ((a +:+ b) +:+ c) = String x (a +:+ b +:+ c)).
  by rewrite IH.
Qed.

Lemma skip_prefix (sep post : string) :
  PyText.skip (String.length sep) (sep +:+ post) = post.
Proof.
  induction sep as [|x sep IH]; [by destruct post|].
  change (PyText.skip (String.length sep) (sep +:+ post) = post). exact IH.
Qed.

(** When the separator occurs, [partition] splits at its first
    occurrence. *)
Lemma partition_found (sep s : string) :
  sep ≠ "" ->
  PyStr.contains sep s = true ->
  exists h t,
    PyText.partition sep s = (h, sep, t) /\
    s = h +:+ sep +:+ t /\
    PyStr.contains sep h = false.
Proof.
  intros Hsep. induction s as [|c s IH]; intros Hin.
  - destruct sep; [congruence|]. discriminate Hin.
  - cbn [PyText.partition].
    destruct (PyStr.startswith sep (String c s)) eqn:Hstart.
    + apply startswith_spec in Hstart as [post Hpost].
      exists "", post. split_and!.
      * by rewrite Hpost, skip_prefix.
      * exact Hpost.
      * destruct sep; [congruence|done].
    + cbn [PyStr.contains] in Hin. rewrite Hstart in Hin. simpl in Hin.
      destruct (IH Hin) as (h & t & Hpart & Hs & Hh).
      rewrite Hpart. exists (String c h), t. split_and!; [done| |].
      * change (String c s = String c (h +:+ sep +:+ t)). by rewrite Hs.
      * cbn [PyStr.contains]. rewrite Hh, orb_false_r.
        destruct (PyStr.startswith sep (String c h)) eqn:Hsh; [|done].
        apply startswith_spec in Hsh as [x Hx].
        assert (PyStr.startswith sep (String c s) = true); [|congruence].
        apply startswith_spec. exists (x +:+ sep +:+ t).
        rewrite <- string_app_assoc, <- Hx, Hs. done.
Qed.

(** X22. The exception handler ends in [sys.exit] in every case but one:
    it fails with an [AttributeError] of its own exactly when there is no
    configuration yet, the traceback was written to the log file, and
    the exception derives from [Exception], is outside the
    [errors.Error] hierarchy and reads as an ACME error (its one-line
    rendering mentions "urn:acme" and the separator ":: "). With a
    configuration it always exits. *)
Theorem X22_handler_exits_but_for_one_case dflt written i config :
  ((exists e, _handle_exception dflt written i config = Fails e) <->
   config = None /\ written = true /\ is_Exception i = true /\
   is_errors_Error (exc_value i) = false /\
   PyStr.contains "urn:acme" (format_exception_only i) = true /\
   PyStr.contains ":: " (format_exception_only i) = true) /\
  (forall c, exists arg,
      _handle_exception dflt written i (Some c) = Exits arg) /\
  (forall e, _handle_exception dflt written i config = Fails e ->
             exn_cls e = AttributeError).
Proof.
  unfold _handle_exception, pruned.
  destruct (PyStr.contains "urn:acme" (format_exception_only i));
    destruct (PyStr.contains ":: " (format_exception_only i));
    destruct (is_Exception i); destruct (is_errors_Error (exc_value i));
    destruct written; simpl.
  all: split_and!;
    [ destruct config as [c|]; simpl;
      try destruct (args.debug c); simpl;
      try destruct (args.verbose_count c <=? dflt)%Z;
      (split; [intros [e He]; try discriminate He; try done
              | intros (? & ? & ? & ? & ? & ?); try discriminate; eauto])
    | intros c; destruct (args.debug c); simpl;
      try destruct (args.verbose_count c <=? dflt)%Z; eauto
    | intros e; destruct config as [c|]; simpl;
      try destruct (args.debug c); simpl;
      try destruct (args.verbose_count c <=? dflt)%Z;
      intros He; try discriminate He; by injection He as <- ].
Qed.

(** X23. What the handler shows for an ACME error. With a configuration
    that does not ask for debugging and a verbosity not above the
    default, an exception outside the [errors.Error] hierarchy whose
    one-line rendering mentions "urn:acme" and the separator ":: " is
    shown without everything up to and including the first separator:
    the text shown is the announcement, the rest of the rendering and
    the pointer to the log directory. At a higher verbosity the whole
    rendering is shown. *)
Theorem X23_handler_prunes_the_acme_code dflt written i c :
  is_Exception i = true ->
  args.debug c = false ->
  is_errors_Error (exc_value i) = false ->
  PyStr.contains "urn:acme" (format_exception_only i) = true ->
  PyStr.contains ":: " (format_exception_only i) = true ->
  ((args.verbose_count c <= dflt)%Z ->
   exists code rest,
     format_exception_only i = code +:+ ":: " +:+ rest /\
     PyStr.contains ":: " code = false /\
     _handle_exception dflt written i (Some c) =
       Exits (ExitText ("An unexpected error occurred:" +:+ nl +:+ rest +:+
                        "Please see the logfiles in " +:+ args.logs_dir c +:+
                        " for more details."))) /\
  ((dflt < args.verbose_count c)%Z ->
   _handle_exception dflt written i (Some c) =
     Exits (ExitText ("An unexpected error occurred:" +:+ nl +:+
                      format_exception_only i +:+
                      "Please see the logfiles in " +:+ args.logs_dir c +:+
                      " for more details."))).
Proof.
  intros Hexc Hdebug Herr Hacme Hsep.
  unfold _handle_exception, pruned, unexpected_msg.
  rewrite Hexc, Hdebug, Herr, Hacme, Hsep. simpl. split.
  - intros Hle. apply Z.leb_le in Hle. rewrite Hle.
    destruct (partition_found ":: " (format_exception_only i))
      as (code & rest & Hpart & Hsplit & Hcode); [done|done|].
    exists code, rest. rewrite Hpart. simpl.
    split_and!; [done|done|]. reflexivity.
  - intros Hgt. apply Z.leb_gt in Hgt. rewrite Hgt. reflexivity.
Qed.

Lemma X23_handler_prunes_the_acme_code_witness :
  exists code rest,
    format_exception_only Cases.acme_error = code +:+ ":: " +:+ rest /\
    PyStr.contains ":: " code = false.
Proof.
  destruct (X23_handler_prunes_the_acme_code (-3)%Z true Cases.acme_error
              Cases.no_args eq_refl eq_refl eq_refl eq_refl eq_refl)
    as [H _].
  destruct H as (code & rest & H1 & H2 & _).
  - vm_compute. discriminate.
  - exists code, rest. split; [exact H1 | exact H2].
Defined.

(** X24. The log handler and the displayer agree: [_cli_log_handler]
    gives the dialog handler exactly when [main] provides the curses
    displayer, and after the displayer block the configuration is in
    non-interactive mode exactly when the displayer is the
    non-interactive one. The handler keeps the level asked for, and keeps
    the format asked for unless it is the dialog handler. *)
Theorem X24_log_handler_matches_displayer config a level fmt :
  (handler_class_of (_cli_log_handler config a level fmt) = DialogHandler <->
   (main_displayer config a).1 = NcursesDisplay) /\
  (args.noninteractive_mode (main_displayer config a).2 = true <->
   (main_displayer config a).1 = NoninteractiveDisplay) /\
  handler_level (_cli_log_handler config a level fmt) = level /\
  (handler_class_of (_cli_log_handler config a level fmt) = StreamHandler ->
   handler_fmt (_cli_log_handler config a level fmt) = fmt).
Proof.
  unfold _cli_log_handler, main_displayer.
  destruct (args.noninteractive_mode a) eqn:Hn, (args.text_mode a),
    (String.eqb (verb config) "renew"); simpl; rewrite ?Hn;
    split_and!; try done; split; done.
Qed.

(** * Questions asked by the resolver *)

Lemma find_loop_warnings domains files found :
  Forall (fun ev => is_warning ev = true) (trace (find_loop domains files found)).
Proof.
  revert found. induction files as [|[f [c|e]] files IH]; intros found; simpl.
  - constructor.
  - apply IH.
  - destruct (is_CertStorageError_or_IOError e); [|constructor].
    specialize (IH found). destruct (find_loop domains files found) as [t' r].
    by constructor.
Qed.

Lemma find_duplicative_certs_warnings env config domains :
  Forall (fun ev => is_warning ev = true)
         (trace (_find_duplicative_certs env config domains)).
Proof.
  unfold _find_duplicative_certs.
  destruct (make_or_verify_dir env) as [[]|e]; msimpl; [|constructor].
  pose proof (find_loop_warnings domains (renewal_conf_files env) (None, None)).
  by destruct (find_loop domains (renewal_conf_files env) (None, None)).
Qed.

(** The calls of a resolver run: the matcher's warnings, then what the
    handler it dispatches to does. *)
Lemma treat_as_renewal_shape env config domains :
  exists warnings asked,
    trace (_treat_as_renewal env config domains) = warnings ++ asked /\
    Forall (fun ev => is_warning ev = true) warnings /\
    (asked = [] \/
     (exists q choices,
         asked = [EvMenu q choices] /\ reinstall config = false /\
         (verb config = "run" \/ verb config = "certonly")) \/
     (exists q,
         expand config = false /\ renew_by_default config = false /\
         ((asked = [EvYesNo q "Expand" "Cancel"] /\ yesno_answer env q = true) \/
          (exists hint,
              asked = [EvYesNo q "Expand" "Cancel";
                       EvAddMessage hint HIGH_PRIORITY] /\
              yesno_answer env q = false /\
              outcome (_treat_as_renewal env config domains) =
                Raise (Exn Error cancel_msg))))).
Proof.
  unfold _treat_as_renewal.
  destruct (duplicate config).
  { exists [], []. split_and!; [done | constructor | by left]. }
  pose proof (find_duplicative_certs_warnings env config domains) as Hw.
  destruct (_find_duplicative_certs env config domains) as [t1 [found|e]];
    msimpl.
  2:{ exists t1, []. rewrite app_nil_r. split_and!; [done | done | by left]. }
  exists t1.
  assert (Hid : forall c,
    let h := _handle_identical_cert_request env config c in
    trace h = [] \/
    exists q choices, trace h = [EvMenu q choices] /\ reinstall config = false /\
                      (verb config = "run" \/ verb config = "certonly")).
  { intros c. unfold _handle_identical_cert_request.
    destruct (should_renew env config c); [by left|].
    destruct (reinstall config); [by left|].
    unfold keep_opt.
    destruct (String.eqb (verb config) "run") eqn:Hrun.
    - apply String.eqb_eq in Hrun. right. msimpl.
      destruct (menu_answer env _ _) as [code choice]. simpl.
      destruct (String.eqb code (CANCEL env)), (choice =? 0)%Z, (choice =? 1)%Z;
        simpl; eauto 10.
    - destruct (String.eqb (verb config) "certonly") eqn:Hco; [|by left].
      apply String.eqb_eq in Hco. right. msimpl.
      destruct (menu_answer env _ _) as [code choice]. simpl.
      destruct (String.eqb code (CANCEL env)), (choice =? 0)%Z, (choice =? 1)%Z;
        simpl; eauto 10. }
  destruct found as [[c|] [c'|]].
  - specialize (Hid c).
    destruct (_handle_identical_cert_request env config c) as [t2 r].
    simpl in Hid. exists t2. split_and!; [done | done |].
    destruct Hid as [->|(q & ch & -> & ? & ?)]; [by left|]. right. left. eauto.
  - specialize (Hid c).
    destruct (_handle_identical_cert_request env config c) as [t2 r].
    simpl in Hid. exists t2. split_and!; [done | done |].
    destruct Hid as [->|(q & ch & -> & ? & ?)]; [by left|]. right. left. eauto.
  - unfold _handle_subset_cert_request.
    destruct (expand config).
    { msimpl. exists []. split_and!; [done | done | by left]. }
    destruct (renew_by_default config).
    { msimpl. exists []. split_and!; [done | done | by left]. }
    msimpl.
    destruct (yesno_answer env (subset_question domains c')) eqn:Hans; msimpl.
    + eexists. split_and!; [done | done |]. right. right.
      exists (subset_question domains c'). eauto.
    + eexists. split_and!; [done | done |]. right. right.
      exists (subset_question domains c'). split_and!; [done|done|].
      right. by exists (duplicate_hint env c').
  - exists []. split_and!; [done | done | by left].
Qed.

(** X25. A run of the resolver asks the user at most one question. The
    menu is shown only when the reinstall flag is unset and the verb is
    "run" or "certonly"; the hint about --duplicate is filed only after
    the user declined the expansion, at high priority, and the run then
    ends with the cancellation error. *)
Theorem X25_resolver_asks_at_most_once env config domains :
  length (filter (fun ev => is_prompt ev = true)
                 (trace (_treat_as_renewal env config domains))) <= 1 /\
  (forall q choices,
      EvMenu q choices ∈ trace (_treat_as_renewal env config domains) ->
      reinstall config = false /\
      (verb config = "run" \/ verb config = "certonly")) /\
  (forall m p,
      EvAddMessage m p ∈ trace (_treat_as_renewal env config domains) ->
      p = HIGH_PRIORITY /\
      outcome (_treat_as_renewal env config domains) =
        Raise (Exn Error cancel_msg) /\
      expand config = false /\ renew_by_default config = false /\
      exists q, EvYesNo q "Expand" "Cancel"
                  ∈ trace (_treat_as_renewal env config domains) /\
                yesno_answer env q = false).
Proof.
  destruct (treat_as_renewal_shape env config domains)
    as (warnings & asked & Htr & Hw & Hasked).
  rewrite Htr.
  assert (Hwq : filter (fun ev => is_prompt ev = true) warnings = []).
  { apply filter_quiet. eapply Forall_impl; [exact Hw|].
    by intros [| | | | | | | | | | | |]. }
  assert (Hnot : forall ev, ev ∈ warnings -> is_warning ev = true).
  { by apply Forall_forall. }
  split_and!.
  - rewrite filter_app, Hwq. simpl.
    destruct Hasked as [->|[(q & ch & -> & _)|(q & _ & _ & [[-> _]|(h & -> & _)])]];
      simpl; lia.
  - intros q ch [Hin|Hin]%elem_of_app.
    { by specialize (Hnot _ Hin). }
    destruct Hasked as [->|[(q' & ch' & -> & ? & ?)|(q' & _ & _ & [[-> _]|(h & -> & _)])]].
    + by apply elem_of_nil in Hin.
    + done.
    + apply list_elem_of_singleton in Hin. done.
    + apply elem_of_cons in Hin as [?|Hin]; [done|].
      apply list_elem_of_singleton in Hin. done.
  - intros m p [Hin|Hin]%elem_of_app.
    { by specialize (Hnot _ Hin). }
    destruct Hasked as [->|[(q' & ch' & -> & ? & ?)|(q' & He & Hr & [[-> _]|(h & -> & Hans & Hout)])]].
    + by apply elem_of_nil in Hin.
    + apply list_elem_of_singleton in Hin. done.
    + apply list_elem_of_singleton in Hin. done.
    + apply elem_of_cons in Hin as [?|Hin]; [done|].
      apply list_elem_of_singleton in Hin. injection Hin as -> ->.
      split_and!; try done. exists q'. split; [|done].
      apply elem_of_app. right. by left.
Qed.
